(** * The module resolution engine of libdnf

    A shallow embedding of [libdnf/module/module_sack.cpp]: the static-context
    resolver, the considered-set cache, the tiered goal solver, the
    active-module selector and the modular filter, with the properties the
    specification states about them. *)

From stdpp Require Import base option list strings gmap sorting.

(** ** Data model *)

(** libsolv's [Id] is a non-negative index into the pool; a [Map] (and the
    [SolvMap] wrapper around it) is a bitset over those indices, kept here as
    the finite set [gset nat] of the indices whose bit is set. The capacity
    of a bitmap, fixed when it is allocated, is not kept. *)

(** [ModuleItem]: the accessors the engine calls, as fields. [get_context] is
    the context read from the metadata, [computed_static_context] the one the
    resolver assigns (empty until then), [module_id] is [id.id]. *)
Record ModuleItem := {
  get_name : string;
  get_stream : string;
  get_version : nat;
  get_context : string;
  computed_static_context : string;
  get_module_dependencies_string : string;
  get_artifacts : list string;
  module_id : nat
}.

#[global] Instance ModuleItem_eq_dec : EqDecision ModuleItem.
Proof. solve_decision. Defined.

Definition with_computed_static_context (c : string) (m : ModuleItem) : ModuleItem :=
  {| get_name := get_name m; get_stream := get_stream m;
     get_version := get_version m; get_context := get_context m;
     computed_static_context := c;
     get_module_dependencies_string := get_module_dependencies_string m;
     get_artifacts := get_artifacts m; module_id := module_id m |}.

Definition with_module_id (i : nat) (m : ModuleItem) : ModuleItem :=
  {| get_name := get_name m; get_stream := get_stream m;
     get_version := get_version m; get_context := get_context m;
     computed_static_context := computed_static_context m;
     get_module_dependencies_string := get_module_dependencies_string m;
     get_artifacts := get_artifacts m; module_id := i |}.

(** Modelled from the spec: [ModuleItem::get_name_stream] is declared outside
    this file; the derived key name+stream. *)
Definition get_name_stream (m : ModuleItem) : string :=
  get_name m +:+ ":" +:+ get_stream m.

(** Modelled from the spec: [ModuleItem::get_name_stream_staticcontext] is
    declared outside this file; the derived key name+stream+context, with the
    label the resolver assigned when there is one. *)
Definition get_name_stream_staticcontext (m : ModuleItem) : string :=
  get_name m +:+ ":" +:+ get_stream m +:+ ":" +:+
  (if decide (computed_static_context m = "") then get_context m
   else computed_static_context m).

Inductive ModuleState := AVAILABLE | ENABLED | DISABLED.

#[global] Instance ModuleState_eq_dec : EqDecision ModuleState.
Proof. solve_decision. Defined.

Inductive ModuleErrorType :=
  | NO_ERROR
  | ERROR_IN_DEFAULTS
  | ERROR_IN_LATEST
  | ERROR
  | CANNOT_RESOLVE_MODULES.

#[global] Instance ModuleErrorType_eq_dec : EqDecision ModuleErrorType.
Proof. solve_decision. Defined.

Inductive GoalProblem := NO_PROBLEM | SOLVER_ERROR.

#[global] Instance GoalProblem_eq_dec : EqDecision GoalProblem.
Proof. solve_decision. Defined.

(** The solver pool: the number of solvables, the name of each solvable
    ([pool_id2str (pool, s->name)]) and the considered bitmap, a pointer that
    may be null. *)
Record Pool := {
  nsolvables : nat;
  solvable_names : gmap nat string;
  considered : option (gset nat)
}.

Definition with_considered (c : option (gset nat)) (p : Pool) : Pool :=
  {| nsolvables := nsolvables p; solvable_names := solvable_names p;
     considered := c |}.

(** One [add_provide_install (reldep_id, strict, best)] of a goal. The
    interned reldep id stands for its string, which is what is kept. *)
Record Job := { job_reldep : string; job_strict : bool; job_best : bool }.

(** What the engine reads back from a resolved [ModuleGoalPrivate]: the value
    [resolve ()] returned, whether [get_transaction ()] is non-null,
    [list_installs ()] and [list_conflicting ()]. *)
Record GoalResult := {
  goal_ret : GoalProblem;
  get_transaction : bool;
  list_installs : list nat;
  list_conflicting : list nat
}.

(** The four goals of the tiered solve: [goal_strict], [goal_best], [goal]
    and [goal_weak]. *)
Inductive Tier := Strict | Best | WeakPreferred | Weak.

#[global] Instance Tier_eq_dec : EqDecision Tier.
Proof. solve_decision. Defined.

(** A package of the rpm sack, with what the package queries filter on. *)
Record Package := {
  pkg_name : string;
  pkg_arch : string;
  pkg_repo_id : string
}.

(** A parsed NEVRA, with what the filter reads of it. *)
Record Nevra := { nevra_get_name : string; nevra_get_arch : string }.

(** A repository, with what the repo query filters on. *)
Record Repo := {
  repo_get_id : string;
  repo_enabled : bool;
  repo_module_hotfixes : bool
}.

(** What the engine does to its collaborators, in the order it does it. *)
Inductive Event :=
  | EvRecompute (c : gset nat)
  | EvCreateWhatProvides (p : Pool)
  | EvGoalNew (t : Tier)
  | EvResolve (t : Tier) (jobs : list Job) (p : Pool)
      (excl : option (gset nat)) (r : GoalResult)
  | EvCritical (msg : string)
  | EvSetModuleExcludes (q : gset nat)
  | EvAddModuleExcludes (q : gset nat).

(** The sack: the members of [ModuleSack::Impl] and of [ModuleSack], what the
    engine reaches through [base] (the persisted module state, the rpm
    package sack and the repositories), and the events so far. [excludes] is
    a [unique_ptr], null until the first resolution. *)
Record ModuleSack := {
  modules : list ModuleItem;
  modules_without_static_context : list ModuleItem;
  active_modules : gmap nat ModuleItem;
  excludes : option (gset nat);
  pool : Pool;
  provides_ready : bool;
  considered_uptodate : bool;
  active_modules_resolved : bool;
  module_defaults : gmap string string;
  metadata_default_streams : gmap string string;
  system_state : gmap string (ModuleState * string);
  rpm_packages : gmap nat Package;
  repos : list Repo;
  module_excludes : gset nat;
  trace : list Event
}.

Definition set_modules (v : list ModuleItem) (s : ModuleSack) : ModuleSack :=
  {| modules := v;
     modules_without_static_context := modules_without_static_context s;
     active_modules := active_modules s; excludes := excludes s;
     pool := pool s; provides_ready := provides_ready s;
     considered_uptodate := considered_uptodate s;
     active_modules_resolved := active_modules_resolved s;
     module_defaults := module_defaults s;
     metadata_default_streams := metadata_default_streams s;
     system_state := system_state s; rpm_packages := rpm_packages s;
     repos := repos s; module_excludes := module_excludes s;
     trace := trace s |}.

Definition set_modules_without_static_context (v : list ModuleItem)
    (s : ModuleSack) : ModuleSack :=
  {| modules := modules s;
     modules_without_static_context := v;
     active_modules := active_modules s; excludes := excludes s;
     pool := pool s; provides_ready := provides_ready s;
     considered_uptodate := considered_uptodate s;
     active_modules_resolved := active_modules_resolved s;
     module_defaults := module_defaults s;
     metadata_default_streams := metadata_default_streams s;
     system_state := system_state s; rpm_packages := rpm_packages s;
     repos := repos s; module_excludes := module_excludes s;
     trace := trace s |}.

Definition set_active_map (v : gmap nat ModuleItem) (s : ModuleSack) : ModuleSack :=
  {| modules := modules s;
     modules_without_static_context := modules_without_static_context s;
     active_modules := v; excludes := excludes s;
     pool := pool s; provides_ready := provides_ready s;
     considered_uptodate := considered_uptodate s;
     active_modules_resolved := active_modules_resolved s;
     module_defaults := module_defaults s;
     metadata_default_streams := metadata_default_streams s;
     system_state := system_state s; rpm_packages := rpm_packages s;
     repos := repos s; module_excludes := module_excludes s;
     trace := trace s |}.

Definition set_excludes (v : option (gset nat)) (s : ModuleSack) : ModuleSack :=
  {| modules := modules s;
     modules_without_static_context := modules_without_static_context s;
     active_modules := active_modules s; excludes := v;
     pool := pool s; provides_ready := provides_ready s;
     considered_uptodate := considered_uptodate s;
     active_modules_resolved := active_modules_resolved s;
     module_defaults := module_defaults s;
     metadata_default_streams := metadata_default_streams s;
     system_state := system_state s; rpm_packages := rpm_packages s;
     repos := repos s; module_excludes := module_excludes s;
     trace := trace s |}.

Definition set_pool (v : Pool) (s : ModuleSack) : ModuleSack :=
  {| modules := modules s;
     modules_without_static_context := modules_without_static_context s;
     active_modules := active_modules s; excludes := excludes s;
     pool := v; provides_ready := provides_ready s;
     considered_uptodate := considered_uptodate s;
     active_modules_resolved := active_modules_resolved s;
     module_defaults := module_defaults s;
     metadata_default_streams := metadata_default_streams s;
     system_state := system_state s; rpm_packages := rpm_packages s;
     repos := repos s; module_excludes := module_excludes s;
     trace := trace s |}.

Definition set_provides_ready (v : bool) (s : ModuleSack) : ModuleSack :=
  {| modules := modules s;
     modules_without_static_context := modules_without_static_context s;
     active_modules := active_modules s; excludes := excludes s;
     pool := pool s; provides_ready := v;
     considered_uptodate := considered_uptodate s;
     active_modules_resolved := active_modules_resolved s;
     module_defaults := module_defaults s;
     metadata_default_streams := metadata_default_streams s;
     system_state := system_state s; rpm_packages := rpm_packages s;
     repos := repos s; module_excludes := module_excludes s;
     trace := trace s |}.

Definition set_considered_uptodate (v : bool) (s : ModuleSack) : ModuleSack :=
  {| modules := modules s;
     modules_without_static_context := modules_without_static_context s;
     active_modules := active_modules s; excludes := excludes s;
     pool := pool s; provides_ready := provides_ready s;
     considered_uptodate := v;
     active_modules_resolved := active_modules_resolved s;
     module_defaults := module_defaults s;
     metadata_default_streams := metadata_default_streams s;
     system_state := system_state s; rpm_packages := rpm_packages s;
     repos := repos s; module_excludes := module_excludes s;
     trace := trace s |}.

Definition set_active_modules_resolved (v : bool) (s : ModuleSack) : ModuleSack :=
  {| modules := modules s;
     modules_without_static_context := modules_without_static_context s;
     active_modules := active_modules s; excludes := excludes s;
     pool := pool s; provides_ready := provides_ready s;
     considered_uptodate := considered_uptodate s;
     active_modules_resolved := v;
     module_defaults := module_defaults s;
     metadata_default_streams := metadata_default_streams s;
     system_state := system_state s; rpm_packages := rpm_packages s;
     repos := repos s; module_excludes := module_excludes s;
     trace := trace s |}.

Definition set_module_defaults (v : gmap string string) (s : ModuleSack) : ModuleSack :=
  {| modules := modules s;
     modules_without_static_context := modules_without_static_context s;
     active_modules := active_modules s; excludes := excludes s;
     pool := pool s; provides_ready := provides_ready s;
     considered_uptodate := considered_uptodate s;
     active_modules_resolved := active_modules_resolved s;
     module_defaults := v;
     metadata_default_streams := metadata_default_streams s;
     system_state := system_state s; rpm_packages := rpm_packages s;
     repos := repos s; module_excludes := module_excludes s;
     trace := trace s |}.

Definition set_module_excludes_field (v : gset nat) (s : ModuleSack) : ModuleSack :=
  {| modules := modules s;
     modules_without_static_context := modules_without_static_context s;
     active_modules := active_modules s; excludes := excludes s;
     pool := pool s; provides_ready := provides_ready s;
     considered_uptodate := considered_uptodate s;
     active_modules_resolved := active_modules_resolved s;
     module_defaults := module_defaults s;
     metadata_default_streams := metadata_default_streams s;
     system_state := system_state s; rpm_packages := rpm_packages s;
     repos := repos s; module_excludes := v;
     trace := trace s |}.

Definition set_trace (v : list Event) (s : ModuleSack) : ModuleSack :=
  {| modules := modules s;
     modules_without_static_context := modules_without_static_context s;
     active_modules := active_modules s; excludes := excludes s;
     pool := pool s; provides_ready := provides_ready s;
     considered_uptodate := considered_uptodate s;
     active_modules_resolved := active_modules_resolved s;
     module_defaults := module_defaults s;
     metadata_default_streams := metadata_default_streams s;
     system_state := system_state s; rpm_packages := rpm_packages s;
     repos := repos s; module_excludes := module_excludes s;
     trace := v |}.

(** ** Operations on the sack: state and errors *)

(** What can leave an operation other than its return: behaviour that C++
    leaves undefined (a null [excludes] dereferenced, the first element of
    an empty vector read). *)
Inductive Exn := Undefined.

(** An operation returns a value or raises, and leaves a sack either way. *)
Inductive Outcome (A : Type) :=
  | Return (a : A) (s : ModuleSack)
  | Raise (e : Exn) (s : ModuleSack).
Arguments Return {A} a s.
Arguments Raise {A} e s.

Definition M (A : Type) : Type := ModuleSack -> Outcome A.

Definition ret {A} (a : A) : M A := fun s => Return a s.

Definition bind {A B} (m : M A) (k : A -> M B) : M B :=
  fun s => match m s with
           | Return a s' => k a s'
           | Raise e s' => Raise e s'
           end.

Definition throw {A} (e : Exn) : M A := fun s => Raise e s.
Definition gets {A} (f : ModuleSack -> A) : M A := fun s => Return (f s) s.
Definition modify (f : ModuleSack -> ModuleSack) : M unit := fun s => Return tt (f s).
Definition emit (e : Event) : M unit := modify (fun s => set_trace (trace s ++ [e]) s).

Declare Scope sack_scope.
Delimit Scope sack_scope with sack.
Notation "x <- c1 ;; c2" := (bind c1 (fun x => c2))
  (at level 100, c1 at next level, right associativity) : sack_scope.
Notation "c1 ;; c2" := (bind c1 (fun _ => c2))
  (at level 100, right associativity) : sack_scope.
Open Scope sack_scope.

(** A range-based [for] over a vector, for its effects. *)
Fixpoint for_each {A} (l : list A) (body : A -> M unit) : M unit :=
  match l with
  | [] => ret tt
  | x :: l' => body x ;; for_each l' body
  end.

(** ** Collaborators *)

(** What the engine calls and this file does not define: libsolv's index
    construction on a pool (a C function: it returns, and has no error
    exit), the resolution of a goal against a pool ([ModuleGoalPrivate::resolve] and what is read back from
    the goal), [rpm::Nevra::parse] with the NEVRA form, and the matching that
    [PackageQuery::filter_nevra] and [filter_provides] do between a pattern
    or capability name and a package. *)
Class Collaborators := {
  pool_createwhatprovides : Pool -> Pool;
  resolve : Pool -> list Job -> GoalResult;
  nevra_parse : string -> list Nevra;
  nevra_match : string -> Package -> bool;
  provides_match : string -> Package -> bool
}.

(** ** Scenarios *)

(** A record as the metadata parser hands it over: no computed context
    yet. *)
Definition module_item (name stream context requires : string) (version id : nat)
    (artifacts : list string) : ModuleItem :=
  {| get_name := name; get_stream := stream; get_version := version;
     get_context := context; computed_static_context := "";
     get_module_dependencies_string := requires;
     get_artifacts := artifacts; module_id := id |}.

(** The persisted module state is written by the configuration, never by
    the engine. *)
Definition with_system_state (v : gmap string (ModuleState * string))
    (s : ModuleSack) : ModuleSack :=
  {| modules := modules s;
     modules_without_static_context := modules_without_static_context s;
     active_modules := active_modules s; excludes := excludes s;
     pool := pool s; provides_ready := provides_ready s;
     considered_uptodate := considered_uptodate s;
     active_modules_resolved := active_modules_resolved s;
     module_defaults := module_defaults s;
     metadata_default_streams := metadata_default_streams s;
     system_state := v; rpm_packages := rpm_packages s;
     repos := repos s; module_excludes := module_excludes s;
     trace := trace s |}.

(** A solvable named name:stream:context provides module(name:stream). *)
Definition provides_job (reldep solvable_name : string) : bool :=
  String.prefix (String.substring 7 (String.length reldep - 8) reldep +:+ ":")
    solvable_name.

Definition visible (p : Pool) (i : nat) : bool :=
  match considered p with
  | Some c => bool_decide (i ∈ c)
  | None => true
  end.

Definition providers (p : Pool) (j : Job) : list nat :=
  List.filter
    (fun i => visible p i &&
              from_option (provides_job (job_reldep j)) false (solvable_names p !! i))
    (seq 0 (nsolvables p)).

(** A small solver: it installs the first visible provider of every job, and
    has a problem when a mandatory job has none. *)
Definition first_provider_resolve (p : Pool) (jobs : list Job) : GoalResult :=
  if forallb (fun j => negb (job_strict j) ||
                       match providers p j with [] => false | _ => true end) jobs
  then {| goal_ret := NO_PROBLEM; get_transaction := true;
          list_installs := omap (fun j => head (providers p j)) jobs;
          list_conflicting := [] |}
  else {| goal_ret := SOLVER_ERROR; get_transaction := false;
          list_installs := []; list_conflicting := [] |}.

Definition first_provider_solver : Collaborators :=
  {| pool_createwhatprovides := fun p => p;
     resolve := first_provider_resolve;
     nevra_parse := fun _ => [];
     nevra_match := fun pattern p => String.eqb pattern (pkg_name p);
     provides_match := fun _ _ => false |}.

(** A scripted solver: it has a problem with every mandatory job and then
    reports the given items as conflicting; with optional jobs only it
    installs the given items that are visible. *)
Definition scripted_resolve (conflicting installs : list nat) (p : Pool)
    (jobs : list Job) : GoalResult :=
  if existsb job_strict jobs
  then {| goal_ret := SOLVER_ERROR; get_transaction := false;
          list_installs := []; list_conflicting := conflicting |}
  else {| goal_ret := NO_PROBLEM; get_transaction := true;
          list_installs := List.filter (visible p) installs;
          list_conflicting := [] |}.

Definition scripted_solver (conflicting installs : list nat) : Collaborators :=
  {| pool_createwhatprovides := fun p => p;
     resolve := scripted_resolve conflicting installs;
     nevra_parse := fun _ => [];
     nevra_match := fun pattern p => String.eqb pattern (pkg_name p);
     provides_match := fun _ _ => false |}.

(** A solver that finds every goal to have a problem. *)
Definition no_solution_solver : Collaborators :=
  {| pool_createwhatprovides := fun p => p;
     resolve := fun _ _ =>
       {| goal_ret := SOLVER_ERROR; get_transaction := false;
          list_installs := []; list_conflicting := [] |};
     nevra_parse := fun _ => [];
     nevra_match := fun pattern p => String.eqb pattern (pkg_name p);
     provides_match := fun _ _ => false |}.

Definition app_1_0 : ModuleItem :=
  module_item "app" "1.0" "ctx1" "" 1 2 ["app-1.0-1.x86_64"].
Definition db_5 : ModuleItem :=
  module_item "db" "5" "ctx" "" 1 3 ["db-5-1.x86_64"].

(** Two modules: app, Enabled on its stream 1.0, and db, on its default
    stream. Nothing has been resolved yet. *)
Definition two_modules : ModuleSack :=
  {| modules := [app_1_0; db_5];
     modules_without_static_context := [];
     active_modules := ∅; excludes := None;
     pool := {| nsolvables := 4;
                solvable_names := {[ 2 := "app:1.0:ctx1"; 3 := "db:5:ctx" ]};
                considered := None |};
     provides_ready := false; considered_uptodate := false;
     active_modules_resolved := false;
     module_defaults := ∅;
     metadata_default_streams := {[ "db" := "5" ]};
     system_state := {[ "app" := (ENABLED, "1.0") ]};
     rpm_packages := ∅; repos := []; module_excludes := ∅; trace := [] |}.

(** The same registry once the configuration has disabled db. *)
Definition db_disabled : gmap string (ModuleState * string) :=
  {[ "app" := (ENABLED, "1.0"); "db" := (DISABLED, "") ]}.

(** Two builds of app:1.0 with the same context, versions 1 and 2, and
    app:2.0; app is Enabled on 1.0. *)
Definition app_1_0_v1 : ModuleItem :=
  module_item "app" "1.0" "ctx" "" 1 2 ["app-1.0-1.x86_64"].
Definition app_1_0_v2 : ModuleItem :=
  module_item "app" "1.0" "ctx" "" 2 3 ["app-1.0-2.x86_64"].
Definition app_2_0 : ModuleItem :=
  module_item "app" "2.0" "ctx2" "" 1 4 ["app-2.0-1.x86_64"].

Definition two_builds : ModuleSack :=
  {| modules := [app_1_0_v1; app_1_0_v2; app_2_0];
     modules_without_static_context := [];
     active_modules := ∅; excludes := Some ∅;
     pool := {| nsolvables := 5;
                solvable_names :=
                  {[ 2 := "app:1.0:ctx"; 3 := "app:1.0:ctx"; 4 := "app:2.0:ctx2" ]};
                considered := None |};
     provides_ready := false; considered_uptodate := false;
     active_modules_resolved := false;
     module_defaults := ∅;
     metadata_default_streams := ∅;
     system_state := {[ "app" := (ENABLED, "1.0") ]};
     rpm_packages := ∅; repos := []; module_excludes := ∅; trace := [] |}.

(** Two pending dynamic-context records of one name+stream, the first with
    no requirement, the second requiring a module named NoRequires; the
    registry is empty. *)
Definition dyn_no_requires : ModuleItem :=
  module_item "tool" "1" "" "" 1 0 [].
Definition dyn_requires_sentinel : ModuleItem :=
  module_item "tool" "1" "" "NoRequires" 1 0 [].

Definition pending_sentinel : ModuleSack :=
  {| modules := [];
     modules_without_static_context := [dyn_no_requires; dyn_requires_sentinel];
     active_modules := ∅; excludes := None;
     pool := {| nsolvables := 2; solvable_names := ∅; considered := None |};
     provides_ready := false; considered_uptodate := false;
     active_modules_resolved := false;
     module_defaults := ∅; metadata_default_streams := ∅; system_state := ∅;
     rpm_packages := ∅; repos := []; module_excludes := ∅; trace := [] |}.

(** A sack whose considered bitmap excludes item 3, provides not ready. *)
Definition considered_without_3 : ModuleSack :=
  {| modules := [app_1_0; db_5];
     modules_without_static_context := [];
     active_modules := ∅; excludes := Some {[ 3 ]};
     pool := {| nsolvables := 4;
                solvable_names := {[ 2 := "app:1.0:ctx1"; 3 := "db:5:ctx" ]};
                considered := Some {[ 0; 1; 2 ]} |};
     provides_ready := false; considered_uptodate := true;
     active_modules_resolved := false;
     module_defaults := ∅;
     metadata_default_streams := {[ "db" := "5" ]};
     system_state := {[ "app" := (ENABLED, "1.0") ]};
     rpm_packages := ∅; repos := []; module_excludes := ∅; trace := [] |}.

(** The spec's filtering example: app:1.0 active, app:2.0 not, one package
    per artifact and one that both list, all from an ordinary repository. *)
Definition app_1_0_shared : ModuleItem :=
  module_item "app" "1.0" "ctx1" "" 1 2 ["app-1.0-1.x86_64"; "lib-1-1.x86_64"].
Definition app_2_0_shared : ModuleItem :=
  module_item "app" "2.0" "ctx2" "" 1 3 ["app-2.0-1.x86_64"; "lib-1-1.x86_64"].

Definition filtering_example : ModuleSack :=
  {| modules := [app_1_0_shared; app_2_0_shared];
     modules_without_static_context := [];
     active_modules := {[ 2 := app_1_0_shared ]}; excludes := Some ∅;
     pool := {| nsolvables := 4;
                solvable_names := {[ 2 := "app:1.0:ctx1"; 3 := "app:2.0:ctx2" ]};
                considered := None |};
     provides_ready := true; considered_uptodate := true;
     active_modules_resolved := true;
     module_defaults := ∅; metadata_default_streams := ∅;
     system_state := {[ "app" := (ENABLED, "1.0") ]};
     rpm_packages :=
       {[ 10 := {| pkg_name := "app-1.0-1.x86_64"; pkg_arch := "x86_64";
                   pkg_repo_id := "fedora" |};
          11 := {| pkg_name := "app-2.0-1.x86_64"; pkg_arch := "x86_64";
                   pkg_repo_id := "fedora" |};
          12 := {| pkg_name := "lib-1-1.x86_64"; pkg_arch := "x86_64";
                   pkg_repo_id := "fedora" |} ]};
     repos := [{| repo_get_id := "fedora"; repo_enabled := true;
                  repo_module_hotfixes := false |}];
     module_excludes := ∅; trace := [] |}.

(** The two-module registry after a first resolution that made both records
    active, once the configuration has disabled db: the considered bitmap
    still shows every item and is marked up to date. *)
Definition db_disabled_after_resolution : ModuleSack :=
  {| modules := [app_1_0; db_5];
     modules_without_static_context := [];
     active_modules := {[ 2 := app_1_0; 3 := db_5 ]}; excludes := Some ∅;
     pool := {| nsolvables := 4;
                solvable_names := {[ 2 := "app:1.0:ctx1"; 3 := "db:5:ctx" ]};
                considered := Some {[ 0; 1; 2; 3 ]} |};
     provides_ready := true; considered_uptodate := true;
     active_modules_resolved := true;
     module_defaults := {[ "db" := "5" ]};
     metadata_default_streams := {[ "db" := "5" ]};
     system_state := db_disabled;
     rpm_packages := ∅; repos := []; module_excludes := ∅; trace := [] |}.

(** The configuration with both modules disabled. *)
Definition all_disabled : gmap string (ModuleState * string) :=
  {[ "app" := (DISABLED, ""); "db" := (DISABLED, "") ]}.

(** Two dynamic-context builds of tool:1 with the same requirement, coming
    in two batches of metadata; the registry holds no record when the first
    arrives. *)
Definition dyn_a : ModuleItem :=
  module_item "tool" "1" "dynA" "platform:f36" 1 0 [].
Definition dyn_b : ModuleItem :=
  module_item "tool" "1" "dynB" "platform:f36" 2 0 [].

Definition first_batch : ModuleSack :=
  {| modules := [];
     modules_without_static_context := [dyn_a];
     active_modules := ∅; excludes := None;
     pool := {| nsolvables := 2; solvable_names := ∅; considered := None |};
     provides_ready := false; considered_uptodate := false;
     active_modules_resolved := false;
     module_defaults := ∅; metadata_default_streams := ∅; system_state := ∅;
     rpm_packages := ∅; repos := []; module_excludes := ∅; trace := [] |}.

(** A goal with no transaction that installs item 3. *)
Definition installs_db : GoalResult :=
  {| goal_ret := NO_PROBLEM; get_transaction := false;
     list_installs := [3]; list_conflicting := [] |}.

Section Engine.

Context {collaborators : Collaborators}.

(** ** Static-context resolver *)

(** Modelled from the spec: [ModuleItem::create_solvable_and_dependencies] is
    defined outside this file; it instantiates the record's solver item: the
    next solvable of the pool, named by the record's name+stream+context. *)
Definition create_solvable_and_dependencies (m : ModuleItem) : M ModuleItem :=
  fun s =>
    let i := nsolvables (pool s) in
    let m' := with_module_id i m in
    Return m'
      (set_pool {| nsolvables := S i;
                   solvable_names :=
                     <[i := get_name_stream_staticcontext m']> (solvable_names (pool s));
                   considered := considered (pool s) |} s).

(** [static_context_map[name_stream][requires_string].push_back (item)] *)
Definition static_context_map_add
    (map : gmap string (gmap string (list ModuleItem))) (m : ModuleItem)
    : gmap string (gmap string (list ModuleItem)) :=
  let inner := default ∅ (map !! get_name_stream m) in
  let group := default [] (inner !! get_module_dependencies_string m) in
  <[get_name_stream m :=
      <[get_module_dependencies_string m := group ++ [m]]> inner]> map.

Definition build_static_context_map (ms : list ModuleItem)
    : gmap string (gmap string (list ModuleItem)) :=
  fold_left static_context_map_add ms ∅.

(** The two [find]s of the loop body: the group of the item's name+stream and
    requires string, when both are in the map. *)
Definition find_static_group
    (map : gmap string (gmap string (list ModuleItem))) (m : ModuleItem)
    : option (list ModuleItem) :=
  match map !! get_name_stream m with
  | Some inner => inner !! get_module_dependencies_string m
  | None => None
  end.

Definition push_module (m : ModuleItem) : M unit :=
  modify (fun s => set_modules (modules s ++ [m]) s).

Definition add_module_without_static_context
    (map : gmap string (gmap string (list ModuleItem))) (module_item : ModuleItem)
    : M unit :=
  let requires_string := get_module_dependencies_string module_item in
  match find_static_group map module_item with
  | Some group =>
      match group with
      | first :: _ =>
          m <- create_solvable_and_dependencies
                 (with_computed_static_context (get_context first) module_item) ;;
          push_module m
      | [] => throw Undefined
      end
  | None =>
      let requires_string :=
        if decide (requires_string = "") then requires_string +:+ "NoRequires"
        else requires_string in
      m <- create_solvable_and_dependencies
             (with_computed_static_context requires_string module_item) ;;
      push_module m
  end.

Definition add_modules_without_static_context : M unit :=
  pending <- gets modules_without_static_context ;;
  match pending with
  | [] => ret tt
  | _ =>
      ms <- gets modules ;;
      let static_context_map := build_static_context_map ms in
      for_each pending (add_module_without_static_context static_context_map) ;;
      modify (set_modules_without_static_context [])
  end.

(** Modelled from the spec: [ModuleSack::Impl::get_modules] is defined outside
    this file; every record has a resolved label once ingestion completes, so
    the pending records are committed before the registry is handed out. *)
Definition get_modules : M (list ModuleItem) :=
  add_modules_without_static_context ;;
  gets modules.


(** ** Considered-set cache *)

(** [pool->considered] is allocated or grown to [pool->nsolvables] bits,
    [map_setall] sets them all, and [map_subtract] clears the bits of the
    exclude map when there is one. *)
Definition recompute_considered_in_pool : M unit :=
  uptodate <- gets considered_uptodate ;;
  if uptodate then ret tt
  else
    n <- gets (fun s => nsolvables (pool s)) ;;
    excl <- gets excludes ;;
    let all : gset nat := set_seq 0 n in
    let c := match excl with
             | Some e => all ∖ e
             | None => all
             end in
    modify (fun s => set_pool (with_considered (Some c) (pool s)) s) ;;
    emit (EvRecompute c) ;;
    modify (set_considered_uptodate true).

Definition make_provides_ready : M unit :=
  ready <- gets provides_ready ;;
  if ready then ret tt
  else
    considered_saved <- gets (fun s => considered (pool s)) ;;
    modify (fun s => set_pool (with_considered None (pool s)) s) ;;
    p <- gets pool ;;
    emit (EvCreateWhatProvides p) ;;
    modify (set_pool (pool_createwhatprovides p)) ;;
    modify (set_provides_ready true) ;;
    modify (fun s => set_pool (with_considered considered_saved (pool s)) s).

(** ** Tiered goal solver *)

(** The names of the solvables a goal installs; an id outside the pool names
    nothing. *)
Definition install_names (p : Pool) (goal : GoalResult) : gset string :=
  list_to_set (omap (fun id => solvable_names p !! id) (list_installs goal)).

(** The second loop of [set_active_modules], over the registry. *)
Definition activate_matching (names : gset string) (ms : list ModuleItem)
    (active : gmap nat ModuleItem) : gmap nat ModuleItem :=
  fold_left
    (fun active module_item =>
       if decide (get_name_stream_staticcontext module_item ∈ names)
       then <[module_id module_item := module_item]> active
       else active)
    ms active.

Definition set_active_modules (goal : GoalResult) : M unit :=
  (if get_transaction goal then ret tt else modify (set_active_map ∅)) ;;
  p <- gets pool ;;
  let names := install_names p goal in
  ms <- gets modules ;;
  modify (fun s => set_active_map (activate_matching names ms (active_modules s)) s).

(** The staged jobs of the four goals. *)
Record Goals := {
  goal_strict : list Job;
  goal_best : list Job;
  goal_ : list Job;
  goal_weak : list Job
}.

Definition add_provide_install (reldep_id : string) (strict best : bool)
    (staging : list Job) : list Job :=
  staging ++ [{| job_reldep := reldep_id; job_strict := strict; job_best := best |}].

(** [get_module_state], with [StateNotFoundError] caught as [AVAILABLE]. *)
Definition module_state_or_available (st : gmap string (ModuleState * string))
    (name : string) : ModuleState :=
  match st !! name with
  | Some (state, _) => state
  | None => AVAILABLE
  end.

(** The body of the loop over the candidates. *)
Definition add_module_jobs (st : gmap string (ModuleState * string))
    (g : Goals) (module_item : ModuleItem) : Goals :=
  let reldep_id := "module(" +:+ get_name_stream module_item +:+ ")" in
  let state := module_state_or_available st (get_name module_item) in
  {| goal_strict := add_provide_install reldep_id true true (goal_strict g);
     goal_weak := add_provide_install reldep_id false false (goal_weak g);
     goal_best :=
       if decide (state = ENABLED)
       then add_provide_install reldep_id true true (goal_best g)
       else add_provide_install reldep_id false true (goal_best g);
     goal_ :=
       if decide (state = ENABLED)
       then add_provide_install reldep_id true false (goal_ g)
       else add_provide_install reldep_id false false (goal_ g) |}.

(** [goal.resolve ()]: the solver runs on the pool as it stands. *)
Definition goal_resolve (t : Tier) (jobs : list Job) : M GoalResult :=
  fun s =>
    let r := resolve (pool s) jobs in
    Return r (set_trace (trace s ++ [EvResolve t jobs (pool s) (excludes s) r]) s).

(** [excludes->add (id)]. The map is allocated for the items the pool holds
    at that time; the model keeps no capacity, an id added is taken to lie
    within it. *)
Definition excludes_add (id : nat) : M unit :=
  fun s =>
    match excludes s with
    | Some e => Return tt (set_excludes (Some ({[id]} ∪ e)) s)
    | None => Raise Undefined s
    end.

(** The message logged at critical severity, with its final newline. *)
Definition critical_message : string :=
  "Modularity filtering totally broken" +:+ String (Ascii.ascii_of_nat 10) "".

Definition module_solve (module_items : list ModuleItem)
    : M (list (list string) * ModuleErrorType) :=
  let problems : list (list string) := [] in
  match module_items with
  | [] =>
      modify (set_active_map ∅) ;;
      ret (problems, NO_ERROR)
  | _ =>
      recompute_considered_in_pool ;;
      make_provides_ready ;;
      emit (EvGoalNew Strict) ;;
      emit (EvGoalNew Best) ;;
      emit (EvGoalNew WeakPreferred) ;;
      emit (EvGoalNew Weak) ;;
      st <- gets system_state ;;
      let goals := fold_left (add_module_jobs st) module_items
                     {| goal_strict := []; goal_best := []; goal_ := []; goal_weak := [] |} in
      r_strict <- goal_resolve Strict (goal_strict goals) ;;
      if decide (goal_ret r_strict = NO_PROBLEM) then
        set_active_modules r_strict ;;
        ret (problems, NO_ERROR)
      else
      r_best <- goal_resolve Best (goal_best goals) ;;
      if decide (goal_ret r_best = NO_PROBLEM) then
        set_active_modules r_best ;;
        ret (problems, ERROR_IN_DEFAULTS)
      else
      r <- goal_resolve WeakPreferred (goal_ goals) ;;
      if decide (goal_ret r = NO_PROBLEM) then
        set_active_modules r ;;
        ret (problems, ERROR_IN_LATEST)
      else
      for_each (list_conflicting r) excludes_add ;;
      r_weak <- goal_resolve Weak (goal_weak goals) ;;
      if decide (goal_ret r_weak = NO_PROBLEM) then
        set_active_modules r_weak ;;
        ret (problems, ERROR)
      else
      emit (EvCritical critical_message) ;;
      modify (set_active_map ∅) ;;
      ret (problems, CANNOT_RESOLVE_MODULES)
  end.

(** ** Active-module selector *)

(** [EMPTY_RESULT] when the name has no default. *)
Definition get_default_stream (name : string) : M string :=
  modify (fun s => set_module_defaults (metadata_default_streams s) s) ;;
  defaults <- gets module_defaults ;;
  ret (default "" (defaults !! name)).

(** The loop of [resolve_active_module_items] over the registry;
    [enabled_stream] and [module_items_to_solve] live across iterations. *)
Fixpoint select_module_items (st : gmap string (ModuleState * string))
    (ms : list ModuleItem) (enabled_stream : string)
    (module_items_to_solve : list ModuleItem) : M (list ModuleItem) :=
  match ms with
  | [] => ret module_items_to_solve
  | module_item :: rest =>
      let module_name := get_name module_item in
      let '(state, enabled_stream) :=
        match st !! module_name with
        | Some (state, stream) => (state, stream)
        | None => (AVAILABLE, enabled_stream)
        end in
      if decide (state = DISABLED) then
        excludes_add (module_id module_item) ;;
        select_module_items st rest enabled_stream module_items_to_solve
      else if decide (state = ENABLED /\ enabled_stream = get_stream module_item) then
        select_module_items st rest enabled_stream (module_items_to_solve ++ [module_item])
      else
        default_stream <- get_default_stream module_name ;;
        if decide (default_stream = get_stream module_item) then
          select_module_items st rest enabled_stream (module_items_to_solve ++ [module_item])
        else
          select_module_items st rest enabled_stream module_items_to_solve
  end.

(** The first part of [resolve_active_module_items]: the fresh exclude map
    and the candidates handed to [module_solve]. The map is allocated before
    [get_modules] commits the pending records, whose items are new to the
    pool: what is proved of the selection and of the resolution is proved
    of a sack with no record pending. *)
Definition module_items_to_solve : M (list ModuleItem) :=
  modify (set_excludes (Some ∅)) ;;
  st <- gets system_state ;;
  ms <- get_modules ;;
  select_module_items st ms "" [].

Definition resolve_active_module_items : M (list (list string) * ModuleErrorType) :=
  items <- module_items_to_solve ;;
  problems <- module_solve items ;;
  modify (set_active_modules_resolved true) ;;
  ret problems.

(** The order in which a [std::map] keyed by item id is walked. *)
Definition id_le (a b : nat * ModuleItem) : Prop := a.1 <= b.1.

#[global] Instance id_le_dec : RelDecision id_le.
Proof. intros a b. unfold id_le. apply _. Defined.

(** The values of the map, in the order of its keys. *)
Definition active_module_values (active : gmap nat ModuleItem) : list ModuleItem :=
  (merge_sort id_le (map_to_list active)).*2.

Definition get_active_modules : M (list ModuleItem) :=
  ms <- get_modules ;;
  match ms with
  | [] => ret []
  | _ =>
      resolved <- gets active_modules_resolved ;;
      (if resolved then ret tt
       else resolve_active_module_items ;; ret tt) ;;
      active <- gets active_modules ;;
      ret (active_module_values active)
  end.

(** ** Modular filter *)

Record FilterData := {
  include_NEVRAs : list string;
  exclude_NEVRAs : list string;
  names : list string;
  src_names : list string;
  reldep_name_list : list string
}.

(** Modelled from the spec: [ModuleItem::is_active] is defined outside this
    file; a record is active when the Active Module Map holds its item. *)
Definition is_active (active : gmap nat ModuleItem) (m : ModuleItem) : bool :=
  bool_decide (is_Some (active !! module_id m)).

(** The loop over the artifacts of an active module. *)
Definition collect_artifact (d : FilterData) (rpm : string) : FilterData :=
  match nevra_parse rpm with
  | [] => d
  | nevra :: _ =>
      let arch := nevra_get_arch nevra in
      if decide (arch = "src" \/ arch = "nosrc") then
        {| include_NEVRAs := include_NEVRAs d; exclude_NEVRAs := exclude_NEVRAs d;
           names := names d;
           src_names := src_names d ++ [nevra_get_name nevra];
           reldep_name_list := reldep_name_list d |}
      else
        {| include_NEVRAs := include_NEVRAs d; exclude_NEVRAs := exclude_NEVRAs d;
           names := names d ++ [nevra_get_name nevra];
           src_names := src_names d;
           reldep_name_list := reldep_name_list d ++ [nevra_get_name nevra] |}
  end.

(** The body of the loop over the registry. *)
Definition collect_module (active : gmap nat ModuleItem) (d : FilterData)
    (module : ModuleItem) : FilterData :=
  let artifacts := get_artifacts module in
  if is_active active module then
    let d := fold_left collect_artifact artifacts d in
    {| include_NEVRAs := include_NEVRAs d ++ artifacts;
       exclude_NEVRAs := exclude_NEVRAs d;
       names := names d; src_names := src_names d;
       reldep_name_list := reldep_name_list d |}
  else
    {| include_NEVRAs := include_NEVRAs d;
       exclude_NEVRAs := exclude_NEVRAs d ++ artifacts;
       names := names d; src_names := src_names d;
       reldep_name_list := reldep_name_list d |}.

Definition collect_data_for_modular_filtering : M FilterData :=
  ms <- get_modules ;;
  active <- gets active_modules ;;
  ret (fold_left (collect_module active) ms
         {| include_NEVRAs := []; exclude_NEVRAs := []; names := [];
            src_names := []; reldep_name_list := [] |}).

(** Modelled from the spec: [rpm::PackageQuery] is defined outside this
    file. A package query is the set of the ids of its packages; a filter
    keeps the packages of the query that satisfy a test; [difference] is set
    difference and [update] is union. Published module excludes are honoured
    by subsequent package queries: [PackageQuery (base)] holds the packages
    of the sack that the module excludes published so far do not hide. *)
Definition query_filter (pkgs : gmap nat Package) (test : Package -> bool)
    (q : gset nat) : gset nat :=
  filter (fun i => from_option test false (pkgs !! i) = true) q.

Definition filter_nevra (pkgs : gmap nat Package) (patterns : list string) :=
  query_filter pkgs (fun p => existsb (fun pat => nevra_match pat p) patterns).

Definition filter_provides (pkgs : gmap nat Package) (reldeps : list string) :=
  query_filter pkgs (fun p => existsb (fun r => provides_match r p) reldeps).

Definition filter_name (pkgs : gmap nat Package) (ns : list string) :=
  query_filter pkgs (fun p => bool_decide (pkg_name p ∈ ns)).

Definition filter_arch (pkgs : gmap nat Package) (archs : list string) :=
  query_filter pkgs (fun p => bool_decide (pkg_arch p ∈ archs)).

(** [filter_repo_id] with [QueryCmp::NEQ] *)
Definition filter_repo_id_neq (pkgs : gmap nat Package) (ids : list string) :=
  query_filter pkgs (fun p => bool_decide (pkg_repo_id p ∉ ids)).

Definition set_module_excludes (q : gset nat) : M unit :=
  modify (set_module_excludes_field q) ;;
  emit (EvSetModuleExcludes q).

Definition add_module_excludes (q : gset nat) : M unit :=
  modify (fun s => set_module_excludes_field (module_excludes s ∪ q) s) ;;
  emit (EvAddModuleExcludes q).

(** The three queries [module_filtering] publishes, from the collected data,
    the packages of the sack, the repositories, and the module excludes
    published when its queries are constructed. *)
Definition exclude_queries (d : FilterData) (pkgs : gmap nat Package)
    (rs : list Repo) (published : gset nat) : gset nat * gset nat * gset nat :=
  let base := dom pkgs ∖ published in
  let keep_repo_ids :=
    ["@System"; "@commandline"] ++
    (repo_get_id <$> filter (fun r => repo_enabled r = true /\ repo_module_hotfixes r = true) rs) in
  let target_packages := filter_repo_id_neq pkgs keep_repo_ids base in
  let include_query := filter_nevra pkgs (include_NEVRAs d) base in
  let exclude_query := filter_nevra pkgs (exclude_NEVRAs d) target_packages in
  let exclude_query := exclude_query ∖ include_query in
  let exclude_provides_query := filter_provides pkgs (reldep_name_list d) target_packages in
  let exclude_provides_query := exclude_provides_query ∖ include_query in
  let exclude_src_names_query := filter_name pkgs (src_names d) target_packages in
  let exclude_src_names_query := filter_arch pkgs ["src"; "nosrc"] exclude_src_names_query in
  let exclude_names_query := filter_name pkgs (names d) target_packages in
  let exclude_names_query := exclude_names_query ∪ exclude_src_names_query in
  let exclude_names_query := exclude_names_query ∖ include_query in
  (exclude_query, exclude_provides_query, exclude_names_query).

Definition module_filtering : M unit :=
  d <- collect_data_for_modular_filtering ;;
  pkgs <- gets rpm_packages ;;
  rs <- gets repos ;;
  published <- gets module_excludes ;;
  let '(exclude_query, exclude_provides_query, exclude_names_query) :=
    exclude_queries d pkgs rs published in
  set_module_excludes exclude_query ;;
  add_module_excludes exclude_provides_query ;;
  add_module_excludes exclude_names_query.

(** ** Textual encoding of the module state *)

Definition module_state_to_string (state : ModuleState) : string :=
  match state with
  | AVAILABLE => "Available"
  | ENABLED => "Enabled"
  | DISABLED => "Disabled"
  end.

(** What [module_state_from_string] returns, or the [InvalidModuleState] it
    throws, with the string it was given. *)
Inductive DecodedState :=
  | ValidState (state : ModuleState)
  | InvalidModuleState (state : string).

Definition module_state_from_string (state : string) : DecodedState :=
  if decide (state = "Available") then ValidState AVAILABLE
  else if decide (state = "Enabled") then ValidState ENABLED
  else if decide (state = "Disabled") then ValidState DISABLED
  else InvalidModuleState state.

(** ** The vocabulary of the properties *)

(** The committed records sharing the name+stream and the requirement
    signature of [d], in registry order. *)
Definition static_group (ms : list ModuleItem) (d : ModuleItem) : list ModuleItem :=
  filter (fun m => get_name_stream m = get_name_stream d /\
                   get_module_dependencies_string m = get_module_dependencies_string d) ms.

(** No committed record shares the name+stream and the signature of [d]. *)
Definition unmatched (ms : list ModuleItem) (d : ModuleItem) : Prop :=
  static_group ms d = [].

Definition group_of (map : gmap string (gmap string (list ModuleItem)))
    (d : ModuleItem) : list ModuleItem :=
  default [] (find_static_group map d).

Definition groups_inhabited (map : gmap string (gmap string (list ModuleItem))) : Prop :=
  forall d, find_static_group map d <> Some [].

(** The label the loop body assigns to a pending record, from the registry
    as it was when the map was built. *)
Definition assigned_label (ms : list ModuleItem) (d : ModuleItem) : string :=
  match static_group ms d with
  | first :: _ => get_context first
  | [] => if decide (get_module_dependencies_string d = "") then "NoRequires"
          else get_module_dependencies_string d
  end.

(** What the resolver may change: the registry, the pending list, and the
    solvables of the pool. *)
Definition registry_frame (s s' : ModuleSack) : Prop :=
  active_modules s' = active_modules s /\
  excludes s' = excludes s /\
  considered (pool s') = considered (pool s) /\
  provides_ready s' = provides_ready s /\
  considered_uptodate s' = considered_uptodate s /\
  active_modules_resolved s' = active_modules_resolved s /\
  module_defaults s' = module_defaults s /\
  metadata_default_streams s' = metadata_default_streams s /\
  system_state s' = system_state s /\
  rpm_packages s' = rpm_packages s /\
  repos s' = repos s /\
  module_excludes s' = module_excludes s /\
  trace s' = trace s.

(** A pending record as it is committed: labelled, and given a solver item. *)
Definition committed_as (ms : list ModuleItem) (d n : ModuleItem) : Prop :=
  exists i, n = with_module_id i (with_computed_static_context (assigned_label ms d) d).

(** The recomputations of the considered bitmap among the events. *)
Definition recomputations (tr : list Event) : nat :=
  length (omap (fun e => match e with
                         | EvRecompute c => Some c
                         | _ => None
                         end) tr).

(** The bitmap a recomputation leaves in the pool. *)
Definition considered_of (s : ModuleSack) : gset nat :=
  set_seq 0 (nsolvables (pool s)) ∖ default ∅ (excludes s).

(** The resolutions among the events: the goal, its jobs, the pool and the
    exclude set it was resolved against, and what the solver reported. *)
Definition resolutions (tr : list Event)
    : list (Tier * list Job * Pool * option (gset nat) * GoalResult) :=
  omap (fun e => match e with
                 | EvResolve t jobs p excl r => Some (t, jobs, p, excl, r)
                 | _ => None
                 end) tr.

(** The goals constructed among the events. *)
Definition constructions (tr : list Event) : list Tier :=
  omap (fun e => match e with
                 | EvGoalNew t => Some t
                 | _ => None
                 end) tr.

(** The constraint a candidate contributes to a goal: mandatory and
    latest-preferred for Strict; mandatory when the persisted state is
    Enabled and optional otherwise for Best (latest-preferred) and
    Weak-preferred (not); optional for Weak. *)
Definition tier_job (st : gmap string (ModuleState * string)) (t : Tier)
    (m : ModuleItem) : Job :=
  let enabled := bool_decide (module_state_or_available st (get_name m) = ENABLED) in
  {| job_reldep := "module(" +:+ get_name_stream m +:+ ")";
     job_strict := match t with
                   | Strict => true
                   | Best | WeakPreferred => enabled
                   | Weak => false
                   end;
     job_best := match t with
                 | Strict | Best => true
                 | WeakPreferred | Weak => false
                 end |}.

Definition tier_jobs (st : gmap string (ModuleState * string)) (items : list ModuleItem)
    (t : Tier) : list Job :=
  tier_job st t <$> items.

Definition tier_error (t : Tier) : ModuleErrorType :=
  match t with
  | Strict => NO_ERROR
  | Best => ERROR_IN_DEFAULTS
  | WeakPreferred => ERROR_IN_LATEST
  | Weak => ERROR
  end.

(** The first goal, in the order Strict, Best, Weak-preferred, Weak, that
    the solver reports free of problems. *)
Definition winner (r : Tier -> GoalResult) : option Tier :=
  List.find (fun t => bool_decide (goal_ret (r t) = NO_PROBLEM))
    [Strict; Best; WeakPreferred; Weak].

(** The goals in that order, up to and including the first one free of
    problems. *)
Fixpoint up_to_first_success (r : Tier -> GoalResult) (ts : list Tier) : list Tier :=
  match ts with
  | [] => []
  | t :: ts' =>
      if decide (goal_ret (r t) = NO_PROBLEM) then [t]
      else t :: up_to_first_success r ts'
  end.

Definition attempts (r : Tier -> GoalResult) : list Tier :=
  up_to_first_success r [Strict; Best; WeakPreferred; Weak].

(** The map [set_active_modules] leaves: the earlier map when the goal has a
    transaction and the empty one otherwise, with every record of the
    registry whose label names an installed solvable written over it. *)
Definition rebuilt_map (s : ModuleSack) (goal : GoalResult) : gmap nat ModuleItem :=
  activate_matching (install_names (pool s) goal) (modules s)
    (if get_transaction goal then active_modules s else ∅).

(** What the tiered solve leaves as it found it. *)
Definition solve_frame (s s' : ModuleSack) : Prop :=
  modules s' = modules s /\
  modules_without_static_context s' = modules_without_static_context s /\
  system_state s' = system_state s /\
  active_modules_resolved s' = active_modules_resolved s /\
  module_defaults s' = module_defaults s /\
  metadata_default_streams s' = metadata_default_streams s /\
  rpm_packages s' = rpm_packages s /\
  repos s' = repos s /\
  module_excludes s' = module_excludes s.

(** The exclude set a goal is resolved against: the one the solve started
    with, joined for the Weak goal by the items the Weak-preferred goal
    reported as conflicting. *)
Definition excludes_at (e : gset nat) (r : Tier -> GoalResult) (t : Tier) : gset nat :=
  match t with
  | Weak => list_to_set (list_conflicting (r WeakPreferred)) ∪ e
  | _ => e
  end.

(** The default stream of a module name, as [get_default_stream] returns it:
    the empty string when the name has none. *)
Definition default_stream (s : ModuleSack) (name : string) : string :=
  default "" (metadata_default_streams s !! name).

(** The persisted state of a module name is Enabled and the persisted
    enabled stream is the stream of the record. *)
Definition enabled_stream_matches (st : gmap string (ModuleState * string))
    (m : ModuleItem) : Prop :=
  exists stream, st !! get_name m = Some (ENABLED, stream) /\ stream = get_stream m.

#[global] Instance enabled_stream_matches_dec st m : Decision (enabled_stream_matches st m).
Proof.
  unfold enabled_stream_matches.
  destruct (st !! get_name m) as [[state stream]|] eqn:E.
  - destruct (decide (state = ENABLED /\ stream = get_stream m)) as [[Hs Hst]|Hn].
    + left. subst. by eexists.
    + right. intros (x & Hx & Hy). apply Hn. by simplify_eq.
  - right. intros (x & Hx & _). discriminate.
Defined.

(** The policy of the selector on one record: not Disabled, and either
    Enabled on its stream or on the default stream of its name. *)
Definition is_candidate (st : gmap string (ModuleState * string))
    (defaults : gmap string string) (m : ModuleItem) : Prop :=
  module_state_or_available st (get_name m) <> DISABLED /\
  (enabled_stream_matches st m \/
   default "" (defaults !! get_name m) = get_stream m).

#[global] Instance is_candidate_dec st defaults m : Decision (is_candidate st defaults m).
Proof. unfold is_candidate. apply _. Defined.

Definition is_disabled (st : gmap string (ModuleState * string)) (m : ModuleItem) : Prop :=
  module_state_or_available st (get_name m) = DISABLED.

#[global] Instance is_disabled_dec st m : Decision (is_disabled st m).
Proof. unfold is_disabled. apply _. Defined.

(** What the selection loop may change: the exclude set and the copy of the
    default streams. *)
Definition select_frame (s s' : ModuleSack) : Prop :=
  modules s' = modules s /\
  modules_without_static_context s' = modules_without_static_context s /\
  active_modules s' = active_modules s /\
  pool s' = pool s /\
  provides_ready s' = provides_ready s /\
  considered_uptodate s' = considered_uptodate s /\
  active_modules_resolved s' = active_modules_resolved s /\
  metadata_default_streams s' = metadata_default_streams s /\
  system_state s' = system_state s /\
  rpm_packages s' = rpm_packages s /\
  repos s' = repos s /\
  module_excludes s' = module_excludes s /\
  trace s' = trace s.

(** The artifacts of the active records of a list, and of the others. *)
Definition artifacts_of (active : gmap nat ModuleItem) (b : bool)
    (ms : list ModuleItem) : list string :=
  mjoin (get_artifacts <$> filter (fun m => is_active active m = b) ms).

(** Every key of an Active Module Map is the item id of its value, and the
    value is a record of the registry. *)
Definition keyed_by_item_id (ms : list ModuleItem) (active : gmap nat ModuleItem) : Prop :=
  map_Forall (fun i m => module_id m = i /\ m ∈ ms) active.

(** The records of a list that carry the item id [i] and whose label is
    among the names, in the order of the list. *)
Definition matching_records (names : gset string) (i : nat) (ms : list ModuleItem)
    : list ModuleItem :=
  filter (fun m => module_id m = i /\ get_name_stream_staticcontext m ∈ names) ms.

(** The label of a record is the name of a solvable the goal installs. *)
Definition names_an_install (p : Pool) (goal : GoalResult) (m : ModuleItem) : Prop :=
  Exists (fun id => solvable_names p !! id = Some (get_name_stream_staticcontext m))
    (list_installs goal).

#[global] Instance names_an_install_dec p goal m : Decision (names_an_install p goal m).
Proof. unfold names_an_install. apply _. Defined.

(** The records of a list that carry the item id [i] and whose label is the
    name of a solvable the goal installs, in the order of the list. *)
Definition installed_records (p : Pool) (goal : GoalResult) (i : nat)
    (ms : list ModuleItem) : list ModuleItem :=
  filter (fun m => module_id m = i /\ names_an_install p goal m) ms.

(** The messages logged at critical severity among the events. *)
Definition criticals (tr : list Event) : list string :=
  omap (fun e => match e with
                 | EvCritical msg => Some msg
                 | _ => None
                 end) tr.

(** The exclude set a solve leaves: the one it started with, joined by the
    items the Weak-preferred goal reported as conflicting when the first
    three goals all had problems. *)
Definition excludes_after (e : gset nat) (r : Tier -> GoalResult) : gset nat :=
  match winner r with
  | Some Weak | None => excludes_at e r Weak
  | Some _ => e
  end.

(** The names of the artifacts that parse as a NEVRA, by the architecture of
    the first parse: of the source ones ([src], [nosrc]) or of the others. *)
Definition nevra_names (source : bool) (artifacts : list string) : list string :=
  omap (fun rpm =>
          match nevra_parse rpm with
          | [] => None
          | nevra :: _ =>
              if decide (nevra_get_arch nevra = "src" \/ nevra_get_arch nevra = "nosrc")
              then (if source then Some (nevra_get_name nevra) else None)
              else (if source then None else Some (nevra_get_name nevra))
          end) artifacts.

(** The repositories whose packages the modular filter leaves alone. *)
Definition protected_repo_ids (rs : list Repo) : list string :=
  ["@System"; "@commandline"] ++
  (repo_get_id <$> filter (fun r => repo_enabled r = true /\ repo_module_hotfixes r = true) rs).

(** ** The nested map of the resolver *)

Lemma find_static_group_add map m d :
  find_static_group (static_context_map_add map m) d =
  if decide (get_name_stream m = get_name_stream d /\
             get_module_dependencies_string m = get_module_dependencies_string d)
  then Some (group_of map d ++ [m])
  else find_static_group map d.
Proof.
  unfold find_static_group, static_context_map_add, group_of, find_static_group.
  destruct (decide (get_name_stream m = get_name_stream d)) as [Hn|Hn].
  - rewrite Hn, lookup_insert_eq.
    destruct (decide (get_module_dependencies_string m =
                      get_module_dependencies_string d)) as [Hr|Hr].
    + rewrite Hr, lookup_insert_eq.
      rewrite decide_True by done.
      destruct (map !! get_name_stream d); reflexivity.
    + rewrite lookup_insert_ne by done.
      rewrite decide_False by tauto.
      destruct (map !! get_name_stream d); [reflexivity | apply lookup_empty].
  - rewrite lookup_insert_ne by done.
    rewrite decide_False by tauto. reflexivity.
Qed.

Lemma groups_inhabited_add map m :
  groups_inhabited map -> groups_inhabited (static_context_map_add map m).
Proof.
  intros H d. rewrite find_static_group_add. case_decide; [|apply H].
  intros [=Heq]. by destruct (group_of map d).
Qed.

Lemma groups_inhabited_fold ms map :
  groups_inhabited map -> groups_inhabited (fold_left static_context_map_add ms map).
Proof.
  revert map. induction ms as [|m ms IH]; intros map H; simpl; [done|].
  apply IH, groups_inhabited_add, H.
Qed.

Lemma group_of_fold ms map d :
  groups_inhabited map ->
  group_of (fold_left static_context_map_add ms map) d = group_of map d ++ static_group ms d.
Proof.
  revert map. induction ms as [|m ms IH]; intros map H; simpl.
  - unfold static_group. by rewrite app_nil_r.
  - rewrite IH by (by apply groups_inhabited_add).
    unfold static_group. rewrite filter_cons.
    unfold group_of at 1. rewrite find_static_group_add.
    case_decide; simpl; [by rewrite <- app_assoc | reflexivity].
Qed.

Lemma groups_inhabited_empty : groups_inhabited ∅.
Proof. intros d. unfold find_static_group. by rewrite lookup_empty. Qed.

(** The nested map the code builds holds, under the two keys of a record, the
    committed records that share them, and has no entry when there is none. *)
Lemma find_static_group_build ms d :
  find_static_group (build_static_context_map ms) d =
  match static_group ms d with
  | [] => None
  | g => Some g
  end.
Proof.
  unfold build_static_context_map.
  pose proof (group_of_fold ms ∅ d groups_inhabited_empty) as Hg.
  pose proof (groups_inhabited_fold ms ∅ groups_inhabited_empty d) as Hne.
  unfold group_of in Hg.
  replace (find_static_group ∅ d) with (@None (list ModuleItem)) in Hg
    by (unfold find_static_group; by rewrite lookup_empty).
  simpl in Hg.
  destruct (find_static_group (fold_left static_context_map_add ms ∅) d) as [g|] eqn:E;
    simpl in Hg; rewrite <- Hg.
  - destruct g; [done | reflexivity].
  - reflexivity.
Qed.

Lemma registry_frame_refl s : registry_frame s s.
Proof. repeat split. Qed.

Lemma registry_frame_trans s1 s2 s3 :
  registry_frame s1 s2 -> registry_frame s2 s3 -> registry_frame s1 s3.
Proof.
  unfold registry_frame. intros H12 H23.
  destruct_and!. repeat split; congruence.
Qed.

Lemma add_module_without_static_context_spec ms d s :
  exists s',
    add_module_without_static_context (build_static_context_map ms) d s = Return tt s' /\
    modules s' = modules s ++
      [with_module_id (nsolvables (pool s))
         (with_computed_static_context (assigned_label ms d) d)] /\
    modules_without_static_context s' = modules_without_static_context s /\
    registry_frame s s'.
Proof.
  unfold add_module_without_static_context, assigned_label.
  rewrite find_static_group_build.
  destruct (static_group ms d) as [|g gs] eqn:E.
  - eexists. split; [reflexivity|]. simpl.
    split; [|split; [reflexivity | repeat split]].
    case_decide as Hr; [rewrite Hr|]; reflexivity.
  - eexists. split; [reflexivity|]. simpl.
    split; [reflexivity|]. split; [reflexivity | repeat split].
Qed.

Lemma for_each_add_module_spec ms pending : forall s,
  exists s' news,
    for_each pending (add_module_without_static_context (build_static_context_map ms)) s
      = Return tt s' /\
    modules s' = modules s ++ news /\
    Forall2 (committed_as ms) pending news /\
    modules_without_static_context s' = modules_without_static_context s /\
    registry_frame s s'.
Proof.
  induction pending as [|d pending IH]; intros s.
  - exists s, []. simpl. rewrite app_nil_r.
    repeat split; constructor.
  - destruct (add_module_without_static_context_spec ms d s)
      as (s1 & Hrun & Hmods & Hpend & Hframe).
    destruct (IH s1) as (s2 & news & Hrun2 & Hmods2 & Hall & Hpend2 & Hframe2).
    exists s2, (with_module_id (nsolvables (pool s))
                  (with_computed_static_context (assigned_label ms d) d) :: news).
    split; [|split; [|split; [|split]]].
    + simpl. unfold bind. rewrite Hrun. exact Hrun2.
    + rewrite Hmods2, Hmods, <- app_assoc. reflexivity.
    + constructor; [by eexists | exact Hall].
    + congruence.
    + eapply registry_frame_trans; eassumption.
Qed.

(** The resolver always returns; it appends the pending records, labelled, to
    the registry, empties the pending list, and touches nothing else but the
    solvables of the pool. *)
Lemma add_modules_without_static_context_spec s :
  exists s' news,
    add_modules_without_static_context s = Return tt s' /\
    modules s' = modules s ++ news /\
    Forall2 (committed_as (modules s)) (modules_without_static_context s) news /\
    modules_without_static_context s' = [] /\
    registry_frame s s'.
Proof.
  unfold add_modules_without_static_context, bind, gets.
  destruct (modules_without_static_context s) as [|d pending] eqn:E.
  - exists s, []. rewrite app_nil_r.
    repeat split; [constructor | exact E].
  - destruct (for_each_add_module_spec (modules s) (d :: pending) s)
      as (s1 & news & Hrun & Hmods & Hall & Hpend & Hframe).
    rewrite Hrun. unfold modify.
    exists (set_modules_without_static_context [] s1), news.
    split; [reflexivity|]. simpl.
    split; [exact Hmods|]. split; [exact Hall|]. split; [reflexivity|].
    exact Hframe.
Qed.

(** ** Properties of the static-context resolver *)

(** The labels of one run of the resolver. It always returns and commits
    every pending record. A record whose name+stream and requirement signature are shared
    by committed records is assigned the context label of that group: the
    context of the group's first record, hence the group's common context
    when it has one. A record with no such group is assigned its signature,
    or "NoRequires" when the signature is empty. So two unmatched records
    with the same name+stream and signature receive the same label, and two
    unmatched records with different signatures receive different labels,
    unless one signature is empty and the other is the string "NoRequires". *)
Lemma static_context_labels (s : ModuleSack) :
  exists s' news,
    add_modules_without_static_context s = Return tt s' /\
    modules s' = modules s ++ news /\
    modules_without_static_context s' = [] /\
    length news = length (modules_without_static_context s) /\
    (forall k d n,
        modules_without_static_context s !! k = Some d -> news !! k = Some n ->
        n = with_module_id (module_id n)
              (with_computed_static_context (computed_static_context n) d) /\
        (forall c, static_group (modules s) d <> [] ->
                   (forall g, g ∈ static_group (modules s) d -> get_context g = c) ->
                   computed_static_context n = c) /\
        (forall g gs, static_group (modules s) d = g :: gs ->
                      computed_static_context n = get_context g) /\
        (unmatched (modules s) d ->
         computed_static_context n =
           if decide (get_module_dependencies_string d = "") then "NoRequires"
           else get_module_dependencies_string d)) /\
    (forall k1 k2 d1 d2 n1 n2,
        modules_without_static_context s !! k1 = Some d1 -> news !! k1 = Some n1 ->
        modules_without_static_context s !! k2 = Some d2 -> news !! k2 = Some n2 ->
        unmatched (modules s) d1 -> unmatched (modules s) d2 ->
        (get_name_stream d1 = get_name_stream d2 ->
         get_module_dependencies_string d1 = get_module_dependencies_string d2 ->
         computed_static_context n1 = computed_static_context n2) /\
        (get_module_dependencies_string d1 <> get_module_dependencies_string d2 ->
         ~ (get_module_dependencies_string d1 = "" /\
            get_module_dependencies_string d2 = "NoRequires") ->
         ~ (get_module_dependencies_string d1 = "NoRequires" /\
            get_module_dependencies_string d2 = "") ->
         computed_static_context n1 <> computed_static_context n2)).
Proof.
  destruct (add_modules_without_static_context_spec s)
    as (s' & news & Hrun & Hmods & Hall & Hpend & _).
  exists s', news.
  assert (Hlabel : forall k d n,
             modules_without_static_context s !! k = Some d -> news !! k = Some n ->
             computed_static_context n = assigned_label (modules s) d).
  { intros k d n Hd Hn.
    destruct (Forall2_lookup_lr _ _ _ _ _ _ Hall Hd Hn) as [i ->]. reflexivity. }
  split; [exact Hrun|]. split; [exact Hmods|]. split; [exact Hpend|].
  split; [symmetry; eapply Forall2_length; exact Hall|].
  split.
  - intros k d n Hd Hn.
    split; [destruct (Forall2_lookup_lr _ _ _ _ _ _ Hall Hd Hn) as [i ->]; reflexivity|].
    rewrite (Hlabel _ _ _ Hd Hn). unfold assigned_label, unmatched.
    split; [|split].
    + intros c Hne Hc. destruct (static_group (modules s) d) as [|g gs]; [done|].
      apply Hc. left.
    + intros g gs ->. reflexivity.
    + intros ->. reflexivity.
  - intros k1 k2 d1 d2 n1 n2 Hd1 Hn1 Hd2 Hn2 Hu1 Hu2.
    rewrite (Hlabel _ _ _ Hd1 Hn1), (Hlabel _ _ _ Hd2 Hn2).
    unfold assigned_label. unfold unmatched in Hu1, Hu2. rewrite Hu1, Hu2.
    split.
    + intros _ ->. reflexivity.
    + intros Hne H1 H2. repeat case_decide; intros Heq; first [congruence | apply H1; split; congruence | apply H2; split; congruence].
Qed.

(** ** Properties of the considered-set cache *)

Lemma recomputations_app tr1 tr2 :
  recomputations (tr1 ++ tr2) = recomputations tr1 + recomputations tr2.
Proof. unfold recomputations. by rewrite omap_app, length_app. Qed.

Lemma recompute_considered_clean s :
  considered_uptodate s = true -> recompute_considered_in_pool s = Return tt s.
Proof.
  intros H. unfold recompute_considered_in_pool, bind, gets. rewrite H. reflexivity.
Qed.

Lemma recompute_considered_dirty s :
  considered_uptodate s = false ->
  recompute_considered_in_pool s =
    Return tt
      (set_considered_uptodate true
         (set_trace (trace s ++ [EvRecompute (considered_of s)])
            (set_pool (with_considered (Some (considered_of s)) (pool s)) s))).
Proof.
  intros H. unfold recompute_considered_in_pool, bind, gets. rewrite H.
  unfold considered_of.
  destruct (excludes s) as [e|] eqn:E; simpl; [reflexivity|].
  rewrite difference_empty_L. reflexivity.
Qed.

(** C8. A refresh with the flag clean changes nothing and recomputes
    nothing. A refresh with the flag dirty sets the bitmap to all the items of
    the pool minus the exclude set and marks the cache clean. Either way a
    second refresh right after is a no-op, so the two calls together
    recompute the bitmap once when the cache was dirty and never when it was
    clean. *)
Theorem refresh_idempotent (s : ModuleSack) :
  exists s1,
    recompute_considered_in_pool s = Return tt s1 /\
    (considered_uptodate s = true -> s1 = s) /\
    (considered_uptodate s = false ->
     considered (pool s1) =
       Some (set_seq 0 (nsolvables (pool s)) ∖ default ∅ (excludes s)) /\
     nsolvables (pool s1) = nsolvables (pool s) /\
     excludes s1 = excludes s /\
     trace s1 = trace s ++ [EvRecompute (considered_of s)]) /\
    considered_uptodate s1 = true /\
    recompute_considered_in_pool s1 = Return tt s1 /\
    recomputations (trace s1) =
      recomputations (trace s) + (if considered_uptodate s then 0 else 1).
Proof.
  destruct (considered_uptodate s) eqn:E.
  - exists s. rewrite (recompute_considered_clean s E).
    repeat split; try done; first [by apply recompute_considered_clean | lia].
  - eexists. rewrite (recompute_considered_dirty s E).
    split; [reflexivity|]. split; [done|]. split; [intros _; repeat split|].
    split; [reflexivity|]. split; [by apply recompute_considered_clean|].
    simpl. rewrite recomputations_app. reflexivity.
Qed.

Lemma make_provides_ready_done s :
  provides_ready s = true -> make_provides_ready s = Return tt s.
Proof. intros H. unfold make_provides_ready, bind, gets. rewrite H. reflexivity. Qed.

Lemma make_provides_ready_built s :
  provides_ready s = false ->
  make_provides_ready s =
    Return tt
      (set_pool (with_considered (considered (pool s))
                   (pool_createwhatprovides (with_considered None (pool s))))
         (set_provides_ready true
            (set_trace (trace s ++ [EvCreateWhatProvides (with_considered None (pool s))]) s))).
Proof.
  intros H. unfold make_provides_ready, bind, gets. rewrite H. reflexivity.
Qed.

(** C7. The operation always returns, and on each of its exits the pool
    carries the considered bitmap it carried on entry. When the provides are
    ready it returns at once and changes nothing. Otherwise the index is
    built once, on the pool with its considered bitmap detached, so ignoring
    exclusions; the operation returns with the result of the construction as
    the pool, the bitmap it held on entry attached again, and the provides
    marked ready. The construction is libsolv's C function and has no error
    exit, so the operation has none either: it never raises. *)
Theorem provides_ready_swap (s : ModuleSack) :
  exists s',
    make_provides_ready s = Return tt s' /\
    considered (pool s') = considered (pool s) /\
    provides_ready s' = true /\
    (provides_ready s = true -> s' = s) /\
    (provides_ready s = false ->
     let detached := with_considered None (pool s) in
     considered detached = None /\
     pool s' = with_considered (considered (pool s)) (pool_createwhatprovides detached) /\
     trace s' = trace s ++ [EvCreateWhatProvides detached]) /\
    (forall e s'', make_provides_ready s <> Raise e s'').
Proof.
  destruct (provides_ready s) eqn:H.
  - exists s. rewrite (make_provides_ready_done s H). by repeat split.
  - eexists. rewrite (make_provides_ready_built s H).
    split; [reflexivity|]. by repeat split.
Qed.

(** ** Properties of the tiered goal solver *)

Lemma resolutions_app tr1 tr2 :
  resolutions (tr1 ++ tr2) = resolutions tr1 ++ resolutions tr2.
Proof. apply omap_app. Qed.

Lemma constructions_app tr1 tr2 :
  constructions (tr1 ++ tr2) = constructions tr1 ++ constructions tr2.
Proof. apply omap_app. Qed.

Lemma add_module_jobs_step st g m :
  add_module_jobs st g m =
  {| goal_strict := goal_strict g ++ [tier_job st Strict m];
     goal_best := goal_best g ++ [tier_job st Best m];
     goal_ := goal_ g ++ [tier_job st WeakPreferred m];
     goal_weak := goal_weak g ++ [tier_job st Weak m] |}.
Proof.
  unfold add_module_jobs, add_provide_install, tier_job.
  destruct (decide (module_state_or_available st (get_name m) = ENABLED)) as [E|E].
  - rewrite (bool_decide_eq_true_2 _ E). reflexivity.
  - rewrite (bool_decide_eq_false_2 _ E). reflexivity.
Qed.

Lemma add_module_jobs_fold st items g :
  fold_left (add_module_jobs st) items g =
  {| goal_strict := goal_strict g ++ tier_jobs st items Strict;
     goal_best := goal_best g ++ tier_jobs st items Best;
     goal_ := goal_ g ++ tier_jobs st items WeakPreferred;
     goal_weak := goal_weak g ++ tier_jobs st items Weak |}.
Proof.
  revert g. induction items as [|m items IH]; intros g.
  - destruct g. simpl. by rewrite !app_nil_r.
  - cbn [fold_left]. rewrite IH, add_module_jobs_step.
    cbn [goal_strict goal_best goal_ goal_weak].
    unfold tier_jobs. rewrite !fmap_cons.
    f_equal; rewrite <- app_assoc; reflexivity.
Qed.

Lemma activate_matching_snoc names ms m active :
  activate_matching names (ms ++ [m]) active =
  if decide (get_name_stream_staticcontext m ∈ names)
  then <[module_id m := m]> (activate_matching names ms active)
  else activate_matching names ms active.
Proof. unfold activate_matching. by rewrite fold_left_app. Qed.

Ltac in_snoc :=
  apply elem_of_app; first [by left | right; by apply list_elem_of_singleton].

(** Every entry of the rebuilt map is a record of the registry under its own
    item id whose label is among the names, or an entry the map already had. *)
Lemma activate_matching_lookup names ms active i m :
  activate_matching names ms active !! i = Some m ->
  (m ∈ ms /\ module_id m = i /\ get_name_stream_staticcontext m ∈ names) \/
  active !! i = Some m.
Proof.
  induction ms as [|x ms IH] using rev_ind.
  - simpl. by right.
  - rewrite activate_matching_snoc. case_decide as Hx.
    + rewrite lookup_insert. case_decide as Hi.
      * intros [= <-]. left. split; [in_snoc | done].
      * intros H. destruct (IH H) as [(? & ? & ?)|?]; [left | by right].
        split; [in_snoc | done].
    + intros H. destruct (IH H) as [(? & ? & ?)|?]; [left | by right].
      split; [in_snoc | done].
Qed.

(** Every record of the registry whose label is among the names has its item
    id in the rebuilt map, mapped to a record with that id and such a label. *)
Lemma activate_matching_matched names ms active m :
  m ∈ ms -> get_name_stream_staticcontext m ∈ names ->
  exists m', activate_matching names ms active !! module_id m = Some m' /\
             m' ∈ ms /\ module_id m' = module_id m /\
             get_name_stream_staticcontext m' ∈ names.
Proof.
  induction ms as [|x ms IH] using rev_ind; [by intros ?%elem_of_nil|].
  intros Hin Hm. rewrite activate_matching_snoc.
  apply elem_of_app in Hin as [Hin|Hin%list_elem_of_singleton].
  - destruct (IH Hin Hm) as (m' & Hl & ? & ? & ?).
    case_decide as Hx.
    + destruct (decide (module_id x = module_id m)) as [Hid|Hid].
      * exists x. rewrite <- Hid, lookup_insert_eq. split; [done|]. split; [in_snoc|done].
      * exists m'. rewrite lookup_insert_ne by done. split; [done|]. split; [in_snoc|done].
    + exists m'. split; [done|]. split; [in_snoc|done].
  - subst x. rewrite decide_True by done.
    exists m. rewrite lookup_insert_eq. split; [done|]. split; [in_snoc|done].
Qed.

(** An entry the map already had stays, unless a matching record of the
    registry carries its id. *)
Lemma activate_matching_kept names ms active i :
  (forall m, m ∈ ms -> get_name_stream_staticcontext m ∈ names -> module_id m <> i) ->
  activate_matching names ms active !! i = active !! i.
Proof.
  induction ms as [|x ms IH] using rev_ind; [done|].
  intros H. rewrite activate_matching_snoc. case_decide as Hx.
  - rewrite lookup_insert_ne by (apply H; [in_snoc | done]).
    apply IH. intros m ? ?. apply H; [in_snoc | done].
  - apply IH. intros m ? ?. apply H; [in_snoc | done].
Qed.

Lemma set_active_modules_spec goal s :
  set_active_modules goal s = Return tt (set_active_map (rebuilt_map s goal) s).
Proof.
  unfold set_active_modules, rebuilt_map, bind, gets, modify, ret.
  destruct (get_transaction goal); [|reflexivity].
  destruct s; reflexivity.
Qed.

Lemma for_each_excludes_add ids : forall s e,
  excludes s = Some e ->
  for_each ids excludes_add s = Return tt (set_excludes (Some (list_to_set ids ∪ e)) s).
Proof.
  induction ids as [|i ids IH]; intros s e He.
  - simpl. unfold ret. f_equal. destruct s; simpl in *. subst.
    by rewrite union_empty_l_L.
  - simpl. unfold bind, excludes_add at 1. rewrite He.
    rewrite (IH _ ({[i]} ∪ e)) by reflexivity.
    f_equal. unfold set_excludes; simpl. f_equal. f_equal.
    rewrite (assoc_L (∪)). by rewrite (comm_L (∪) (list_to_set ids)).
Qed.

(** The refresh of the considered bitmap and the index construction that
    open a solve return, resolve and construct no goal, and leave the
    registry, the active map and the exclude set alone. *)
Lemma solve_preamble s :
  exists s0,
    (recompute_considered_in_pool ;; make_provides_ready) s = Return tt s0 /\
    solve_frame s s0 /\
    active_modules s0 = active_modules s /\
    excludes s0 = excludes s /\
    resolutions (trace s0) = resolutions (trace s) /\
    constructions (trace s0) = constructions (trace s).
Proof.
  unfold bind.
  assert (Hrec : exists s1, recompute_considered_in_pool s = Return tt s1 /\
            solve_frame s s1 /\ active_modules s1 = active_modules s /\
            excludes s1 = excludes s /\
            resolutions (trace s1) = resolutions (trace s) /\
            constructions (trace s1) = constructions (trace s)).
  { destruct (considered_uptodate s) eqn:E.
    - exists s. rewrite (recompute_considered_clean s E). repeat split.
    - eexists. rewrite (recompute_considered_dirty s E). split; [reflexivity|].
      simpl. rewrite resolutions_app, constructions_app. simpl.
      rewrite !app_nil_r. repeat split. }
  destruct Hrec as (s1 & -> & Hf1 & Ha1 & He1 & Hr1 & Hc1).
  destruct (provides_ready s1) eqn:E.
  - exists s1. rewrite (make_provides_ready_done s1 E). repeat split; try done; apply Hf1.
  - eexists. rewrite (make_provides_ready_built s1 E). split; [reflexivity|].
    simpl. rewrite resolutions_app, constructions_app. simpl. rewrite !app_nil_r.
    repeat split; try done; apply Hf1.
Qed.

Lemma bind_assoc {A B C} (m : M A) (f : A -> M B) (g : B -> M C) s :
  bind m (fun x => bind (f x) g) s = bind (bind m f) g s.
Proof. unfold bind. destruct (m s); reflexivity. Qed.

(** Read the fields of an updated sack back. *)
Ltac unfold_sack :=
  cbn [set_modules set_modules_without_static_context set_active_map
       set_excludes set_pool set_provides_ready set_considered_uptodate
       set_active_modules_resolved set_module_defaults set_module_excludes_field
       set_trace
       modules modules_without_static_context active_modules excludes pool
       provides_ready considered_uptodate active_modules_resolved module_defaults
       metadata_default_streams system_state rpm_packages repos module_excludes trace].

Lemma sack_eq (s1 s2 : ModuleSack) :
  modules s1 = modules s2 ->
  modules_without_static_context s1 = modules_without_static_context s2 ->
  active_modules s1 = active_modules s2 ->
  excludes s1 = excludes s2 ->
  pool s1 = pool s2 ->
  provides_ready s1 = provides_ready s2 ->
  considered_uptodate s1 = considered_uptodate s2 ->
  active_modules_resolved s1 = active_modules_resolved s2 ->
  module_defaults s1 = module_defaults s2 ->
  metadata_default_streams s1 = metadata_default_streams s2 ->
  system_state s1 = system_state s2 ->
  rpm_packages s1 = rpm_packages s2 ->
  repos s1 = repos s2 ->
  module_excludes s1 = module_excludes s2 ->
  trace s1 = trace s2 ->
  s1 = s2.
Proof. destruct s1, s2. simpl. intros. subst. reflexivity. Qed.

(** Two sacks are equal when their fields are. *)
Ltac sack_ext := apply sack_eq; unfold_sack; try reflexivity.

(** A solve of a non-empty candidate list, case by case: the refresh and the
    index construction lead to a sack [s0]; the four goals are constructed;
    they are resolved in turn against the pool of [s0] until one is free of
    problems, the conflicting items of the third joining the exclude set
    before the fourth. *)
Lemma module_solve_cases m items s e :
  excludes s = Some e ->
  exists s0,
    solve_frame s s0 /\
    resolutions (trace s0) = resolutions (trace s) /\
    constructions (trace s0) = constructions (trace s) /\
    let st := system_state s in
    let cands := m :: items in
    let r t := resolve (pool s0) (tier_jobs st cands t) in
    let news := [EvGoalNew Strict; EvGoalNew Best; EvGoalNew WeakPreferred; EvGoalNew Weak] in
    let ev t x := EvResolve t (tier_jobs st cands t) (pool s0) (Some x) (r t) in
    let e' := list_to_set (list_conflicting (r WeakPreferred)) ∪ e in
    let fin evs ex act :=
      set_active_map act (set_excludes (Some ex) (set_trace (trace s0 ++ news ++ evs) s0)) in
    let act t :=
      activate_matching (install_names (pool s0) (r t)) (modules s)
        (if get_transaction (r t) then active_modules s else ∅) in
    (goal_ret (r Strict) = NO_PROBLEM /\
     module_solve cands s = Return ([], NO_ERROR) (fin [ev Strict e] e (act Strict))) \/
    (goal_ret (r Strict) <> NO_PROBLEM /\ goal_ret (r Best) = NO_PROBLEM /\
     module_solve cands s =
       Return ([], ERROR_IN_DEFAULTS) (fin [ev Strict e; ev Best e] e (act Best))) \/
    (goal_ret (r Strict) <> NO_PROBLEM /\ goal_ret (r Best) <> NO_PROBLEM /\
     goal_ret (r WeakPreferred) = NO_PROBLEM /\
     module_solve cands s =
       Return ([], ERROR_IN_LATEST)
         (fin [ev Strict e; ev Best e; ev WeakPreferred e] e (act WeakPreferred))) \/
    (goal_ret (r Strict) <> NO_PROBLEM /\ goal_ret (r Best) <> NO_PROBLEM /\
     goal_ret (r WeakPreferred) <> NO_PROBLEM /\ goal_ret (r Weak) = NO_PROBLEM /\
     module_solve cands s =
       Return ([], ERROR)
         (fin [ev Strict e; ev Best e; ev WeakPreferred e; ev Weak e'] e' (act Weak))) \/
    (goal_ret (r Strict) <> NO_PROBLEM /\ goal_ret (r Best) <> NO_PROBLEM /\
     goal_ret (r WeakPreferred) <> NO_PROBLEM /\ goal_ret (r Weak) <> NO_PROBLEM /\
     module_solve cands s =
       Return ([], CANNOT_RESOLVE_MODULES)
         (fin [ev Strict e; ev Best e; ev WeakPreferred e; ev Weak e';
               EvCritical critical_message] e' ∅)).
Proof.
  intros He.
  destruct (solve_preamble s) as (s0 & Hpre & Hf & Ha & Hex & Hres & Hcon).
  exists s0. split; [exact Hf|]. split; [exact Hres|]. split; [exact Hcon|].
  intros st cands r news ev e' fin act.
  destruct Hf as (Hmods & _ & Hst & _).
  assert (Hex0 : excludes s0 = Some e) by congruence.
  pose proof (for_each_excludes_add (list_conflicting (r WeakPreferred))) as Hadd.
  eassert (Hchain : module_solve cands s = _).
  { unfold module_solve. cbn [cands].
    rewrite bind_assoc. unfold bind at 1. rewrite Hpre.
    unfold bind, emit, modify, gets, goal_resolve, ret.
    cbn [trace pool excludes system_state set_trace set_excludes set_active_map].
    rewrite add_module_jobs_fold, Hst.
    cbn [goal_strict goal_best goal_ goal_weak app].
    reflexivity. }
  rewrite Hchain. clear Hchain.
  change (resolve (pool s0) (tier_jobs (system_state s) cands Strict)) with (r Strict).
  destruct (decide (goal_ret (r Strict) = NO_PROBLEM)) as [H1|H1].
  { left. split; [exact H1|]. rewrite set_active_modules_spec. f_equal.
    unfold fin, act, ev, news, rebuilt_map.
    sack_ext; rewrite ?Hmods, ?Ha, ?Hex0, <- ?app_assoc; reflexivity. }
  right. cbv beta. cbn [pool excludes trace set_trace set_excludes].
  change (resolve (pool s0) (tier_jobs (system_state s) cands Best)) with (r Best).
  destruct (decide (goal_ret (r Best) = NO_PROBLEM)) as [H2|H2].
  { left. split; [exact H1|]. split; [exact H2|]. rewrite set_active_modules_spec. f_equal.
    unfold fin, act, ev, news, rebuilt_map.
    sack_ext; rewrite ?Hmods, ?Ha, ?Hex0, <- ?app_assoc; reflexivity. }
  right. cbv beta. cbn [pool excludes trace set_trace set_excludes].
  change (resolve (pool s0) (tier_jobs (system_state s) cands WeakPreferred))
    with (r WeakPreferred).
  destruct (decide (goal_ret (r WeakPreferred) = NO_PROBLEM)) as [H3|H3].
  { left. do 2 (split; [assumption|]). split; [exact H3|].
    rewrite set_active_modules_spec. f_equal.
    unfold fin, act, ev, news, rebuilt_map.
    sack_ext; rewrite ?Hmods, ?Ha, ?Hex0, <- ?app_assoc; reflexivity. }
  right. cbv beta.
  rewrite (Hadd _ e) by exact Hex0.
  cbn [pool excludes trace set_trace set_excludes].
  change (resolve (pool s0) (tier_jobs (system_state s) cands Weak)) with (r Weak).
  destruct (decide (goal_ret (r Weak) = NO_PROBLEM)) as [H4|H4].
  { left. do 3 (split; [assumption|]). split; [exact H4|].
    rewrite set_active_modules_spec. f_equal.
    unfold fin, act, ev, news, rebuilt_map.
    sack_ext; rewrite ?Hmods, ?Ha, ?Hex0, <- ?app_assoc; reflexivity. }
  right. do 4 (split; [assumption|]). cbv beta.
  f_equal.
  unfold fin, act, ev, news, rebuilt_map.
  sack_ext; rewrite ?Hex0, <- ?app_assoc; reflexivity.
Qed.

Lemma winner_attempts_cases (r : Tier -> GoalResult) :
  (goal_ret (r Strict) = NO_PROBLEM ->
   winner r = Some Strict /\ attempts r = [Strict]) /\
  (goal_ret (r Strict) <> NO_PROBLEM -> goal_ret (r Best) = NO_PROBLEM ->
   winner r = Some Best /\ attempts r = [Strict; Best]) /\
  (goal_ret (r Strict) <> NO_PROBLEM -> goal_ret (r Best) <> NO_PROBLEM ->
   goal_ret (r WeakPreferred) = NO_PROBLEM ->
   winner r = Some WeakPreferred /\ attempts r = [Strict; Best; WeakPreferred]) /\
  (goal_ret (r Strict) <> NO_PROBLEM -> goal_ret (r Best) <> NO_PROBLEM ->
   goal_ret (r WeakPreferred) <> NO_PROBLEM -> goal_ret (r Weak) = NO_PROBLEM ->
   winner r = Some Weak /\ attempts r = [Strict; Best; WeakPreferred; Weak]) /\
  (goal_ret (r Strict) <> NO_PROBLEM -> goal_ret (r Best) <> NO_PROBLEM ->
   goal_ret (r WeakPreferred) <> NO_PROBLEM -> goal_ret (r Weak) <> NO_PROBLEM ->
   winner r = None /\ attempts r = [Strict; Best; WeakPreferred; Weak]).
Proof.
  unfold winner, attempts. cbn [List.find up_to_first_success].
  destruct (decide (goal_ret (r Strict) = NO_PROBLEM)) as [H1|H1];
    [rewrite (bool_decide_eq_true_2 _ H1) | rewrite (bool_decide_eq_false_2 _ H1)];
    [by repeat (split; [intros|])|].
  destruct (decide (goal_ret (r Best) = NO_PROBLEM)) as [H2|H2];
    [rewrite (bool_decide_eq_true_2 _ H2) | rewrite (bool_decide_eq_false_2 _ H2)];
    [by repeat (split; [intros|])|].
  destruct (decide (goal_ret (r WeakPreferred) = NO_PROBLEM)) as [H3|H3];
    [rewrite (bool_decide_eq_true_2 _ H3) | rewrite (bool_decide_eq_false_2 _ H3)];
    [by repeat (split; [intros|])|].
  destruct (decide (goal_ret (r Weak) = NO_PROBLEM)) as [H4|H4];
    [rewrite (bool_decide_eq_true_2 _ H4) | rewrite (bool_decide_eq_false_2 _ H4)];
    by repeat (split; [intros|]).
Qed.

(** X22. The order and the severity of a solve. A solve of a non-empty
    candidate list returns, with no problems listed. It constructs the four
    goals. The goals it resolves are the Strict, Best, Weak-preferred and
    Weak ones, in this order, each against the same pool, up to and
    including the first that the solver reports free of problems, and none
    after it. The severity is the one of that goal, and that goal's installs
    are written to the Active Module Map, over the entries it held when the
    goal has a transaction: every record of the registry whose
    name+stream+context label names an installed solvable has its item id in
    the map, and every entry under an id the map did not hold before the
    solve is such a record. When no goal is free of problems the severity is
    CannotResolve and the map is empty. *)
Theorem tiered_solve_order (items : list ModuleItem) (s : ModuleSack) (e : gset nat) :
  items <> [] -> excludes s = Some e ->
  exists err s',
    module_solve items s = Return ([], err) s' /\
    modules s' = modules s /\
    constructions (trace s') =
      constructions (trace s) ++ [Strict; Best; WeakPreferred; Weak] /\
    let st := system_state s in
    let r t := resolve (pool s') (tier_jobs st items t) in
    resolutions (trace s') =
      resolutions (trace s) ++
      ((fun t => (t, tier_jobs st items t, pool s', Some (excludes_at e r t), r t))
         <$> attempts r) /\
    match winner r with
    | Some t =>
        err = tier_error t /\
        active_modules s' =
          activate_matching (install_names (pool s') (r t)) (modules s)
            (if get_transaction (r t) then active_modules s else ∅) /\
        (forall m, m ∈ modules s ->
           get_name_stream_staticcontext m ∈ install_names (pool s') (r t) ->
           exists m', active_modules s' !! module_id m = Some m' /\
                      m' ∈ modules s /\ module_id m' = module_id m /\
                      get_name_stream_staticcontext m' ∈ install_names (pool s') (r t)) /\
        (forall i m, active_modules s' !! i = Some m ->
           active_modules s !! i = None ->
           m ∈ modules s /\ module_id m = i /\
           get_name_stream_staticcontext m ∈ install_names (pool s') (r t))
    | None =>
        err = CANNOT_RESOLVE_MODULES /\ active_modules s' = ∅
    end.
Proof.
  intros Hne He. destruct items as [|m items]; [done|]. clear Hne.
  destruct (module_solve_cases m items s e He) as (s0 & Hf & Hres & Hcon & Hcases).
  cbv zeta in Hcases.
  pose proof (winner_attempts_cases
                (fun t => resolve (pool s0) (tier_jobs (system_state s) (m :: items) t)))
    as (W1 & W2 & W3 & W4 & W5).
  destruct Hf as (Hmods & _).
  assert (Hwin : forall g : GoalResult,
    let A := activate_matching (install_names (pool s0) g) (modules s)
               (if get_transaction g then active_modules s else ∅) in
    (forall x, x ∈ modules s ->
       get_name_stream_staticcontext x ∈ install_names (pool s0) g ->
       exists m', A !! module_id x = Some m' /\ m' ∈ modules s /\
                  module_id m' = module_id x /\
                  get_name_stream_staticcontext m' ∈ install_names (pool s0) g) /\
    (forall i x, A !! i = Some x -> active_modules s !! i = None ->
       x ∈ modules s /\ module_id x = i /\
       get_name_stream_staticcontext x ∈ install_names (pool s0) g)).
  { intros g A. split.
    - intros x Hx Hl. by apply activate_matching_matched.
    - intros i x Hx Hnone. apply activate_matching_lookup in Hx as [?|Hb]; [done|].
      destruct (get_transaction g); [congruence|]. by rewrite lookup_empty in Hb. }
  destruct Hcases as [(H1 & Hrun)|[(H1 & H2 & Hrun)|[(H1 & H2 & H3 & Hrun)|
                     [(H1 & H2 & H3 & H4 & Hrun)|(H1 & H2 & H3 & H4 & Hrun)]]]];
    eexists _, _; (split; [exact Hrun|]); unfold_sack; (split; [exact Hmods|]);
    (split; [rewrite !constructions_app, Hcon; reflexivity|]).
  - destruct (W1 H1) as [-> ->].
    split; [rewrite !resolutions_app, Hres; reflexivity|].
    split; [reflexivity|]. split; [reflexivity|]. apply Hwin.
  - destruct (W2 H1 H2) as [-> ->].
    split; [rewrite !resolutions_app, Hres; reflexivity|].
    split; [reflexivity|]. split; [reflexivity|]. apply Hwin.
  - destruct (W3 H1 H2 H3) as [-> ->].
    split; [rewrite !resolutions_app, Hres; reflexivity|].
    split; [reflexivity|]. split; [reflexivity|]. apply Hwin.
  - destruct (W4 H1 H2 H3 H4) as [-> ->].
    split; [rewrite !resolutions_app, Hres; reflexivity|].
    split; [reflexivity|]. split; [reflexivity|]. apply Hwin.
  - destruct (W5 H1 H2 H3 H4) as [-> ->].
    split; [rewrite !resolutions_app, Hres; reflexivity|].
    split; reflexivity.
Qed.

(** C6. A solve of an empty candidate list returns no problems and NoError,
    leaves the Active Module Map empty, and constructs and resolves no goal:
    it touches nothing but the map. *)
Theorem empty_candidates_no_solve (s : ModuleSack) :
  exists s',
    module_solve [] s = Return ([], NO_ERROR) s' /\
    s' = set_active_map ∅ s /\
    active_modules s' = ∅ /\
    trace s' = trace s /\
    constructions (trace s') = constructions (trace s) /\
    resolutions (trace s') = resolutions (trace s) /\
    pool s' = pool s /\
    excludes s' = excludes s.
Proof.
  exists (set_active_map ∅ s). repeat split.
Qed.

(** ** Properties of the active-module selector *)

Lemma get_default_stream_spec name s :
  get_default_stream name s =
  Return (default_stream s name) (set_module_defaults (metadata_default_streams s) s).
Proof. reflexivity. Qed.

Lemma select_frame_refl s : select_frame s s.
Proof. repeat split. Qed.

Lemma select_frame_trans s1 s2 s3 :
  select_frame s1 s2 -> select_frame s2 s3 -> select_frame s1 s3.
Proof.
  unfold select_frame. intros H12 H23.
  destruct_and!. repeat split; congruence.
Qed.

Lemma get_default_stream_spec_bind {A} name (k : string -> M A) s :
  bind (get_default_stream name) k s =
  k (default_stream s name) (set_module_defaults (metadata_default_streams s) s).
Proof. reflexivity. Qed.

Lemma select_cons_disabled st m ms es acc s :
  is_disabled st m ->
  exists es',
    select_module_items st (m :: ms) es acc s =
    bind (excludes_add (module_id m)) (fun _ => select_module_items st ms es' acc) s.
Proof.
  unfold is_disabled, module_state_or_available. cbn [select_module_items].
  destruct (st !! get_name m) as [[state stream]|]; [|done].
  intros ->. exists stream. reflexivity.
Qed.

Lemma select_cons_enabled st m ms es acc s :
  enabled_stream_matches st m ->
  exists es',
    select_module_items st (m :: ms) es acc s =
    select_module_items st ms es' (acc ++ [m]) s.
Proof.
  intros (stream & Hst & Heq). cbn [select_module_items]. rewrite Hst.
  exists stream. rewrite decide_False by done. rewrite decide_True by done. reflexivity.
Qed.

Lemma select_cons_default st m ms es acc s :
  ~ is_disabled st m -> ~ enabled_stream_matches st m ->
  exists es',
    select_module_items st (m :: ms) es acc s =
    select_module_items st ms es'
      (if decide (default_stream s (get_name m) = get_stream m) then acc ++ [m] else acc)
      (set_module_defaults (metadata_default_streams s) s).
Proof.
  unfold is_disabled, enabled_stream_matches, module_state_or_available.
  cbn [select_module_items].
  destruct (st !! get_name m) as [[state stream]|]; intros Hd He.
  - exists stream. rewrite decide_False by done.
    rewrite decide_False by (intros [-> ->]; apply He; by eexists).
    rewrite get_default_stream_spec_bind. by case_decide.
  - exists es. rewrite decide_False by done.
    rewrite decide_False by (intros [? _]; done).
    rewrite get_default_stream_spec_bind. by case_decide.
Qed.

Lemma select_module_items_spec st ms : forall s enabled_stream acc e,
  excludes s = Some e ->
  exists s',
    select_module_items st ms enabled_stream acc s =
      Return (acc ++ filter (is_candidate st (metadata_default_streams s)) ms) s' /\
    excludes s' = Some (list_to_set (module_id <$> filter (is_disabled st) ms) ∪ e) /\
    select_frame s s'.
Proof.
  induction ms as [|m ms IH]; intros s es acc e He.
  - exists s. simpl. rewrite app_nil_r, union_empty_l_L.
    split; [reflexivity|]. split; [exact He | apply select_frame_refl].
  - rewrite !filter_cons.
    destruct (decide (is_disabled st m)) as [Hd|Hd].
    + destruct (select_cons_disabled st m ms es acc s Hd) as [es' ->].
      unfold bind. unfold excludes_add at 1. rewrite He.
      destruct (IH (set_excludes (Some ({[module_id m]} ∪ e)) s) es' acc
                  ({[module_id m]} ∪ e) eq_refl) as (s' & Hrun & Hex & Hfr).
      exists s'.
      rewrite (decide_False (P := is_candidate _ _ m)) by (intros [? _]; done).
      split; [exact Hrun|]. split.
      * rewrite Hex, fmap_cons, list_to_set_cons. f_equal.
        rewrite (assoc_L (∪)). f_equal. apply (comm_L (∪)).
      * eapply select_frame_trans; [|exact Hfr]. repeat split.
    + destruct (decide (enabled_stream_matches st m)) as [Hen|Hen].
      * destruct (select_cons_enabled st m ms es acc s Hen) as [es' ->].
        destruct (IH s es' (acc ++ [m]) e He) as (s' & Hrun & Hex & Hfr).
        exists s'.
        rewrite (decide_True (P := is_candidate _ _ m)) by (split; [done | by left]).
        rewrite <- app_assoc in Hrun. by split.
      * destruct (select_cons_default st m ms es acc s Hd Hen) as [es' ->].
        destruct (IH (set_module_defaults (metadata_default_streams s) s) es'
                    (if decide (default_stream s (get_name m) = get_stream m)
                     then acc ++ [m] else acc) e He) as (s' & Hrun & Hex & Hfr).
        exists s'. split; [|split; [exact Hex|]].
        -- rewrite Hrun. f_equal. unfold default_stream.
           destruct (decide (default "" (metadata_default_streams s !! get_name m) =
                             get_stream m)) as [Hdef|Hdef].
           ++ rewrite (decide_True (P := is_candidate _ _ m))
                by (split; [done | by right]).
              by rewrite <- app_assoc.
           ++ rewrite (decide_False (P := is_candidate _ _ m))
                by (intros [_ [?|?]]; done).
              reflexivity.
        -- eapply select_frame_trans; [|exact Hfr]. repeat split.
Qed.

Lemma get_modules_spec s :
  exists s' news,
    get_modules s = Return (modules s') s' /\
    modules s' = modules s ++ news /\
    Forall2 (committed_as (modules s)) (modules_without_static_context s) news /\
    modules_without_static_context s' = [] /\
    registry_frame s s'.
Proof.
  destruct (add_modules_without_static_context_spec s)
    as (s' & news & Hrun & Hmods & Hall & Hpend & Hframe).
  exists s', news. unfold get_modules, bind. rewrite Hrun.
  split; [reflexivity|]. split; [exact Hmods|]. split; [exact Hall|].
  split; [exact Hpend | exact Hframe].
Qed.

(** The selection with no record pending: the registry is read as it
    stands. *)
Lemma module_items_to_solve_committed s :
  modules_without_static_context s = [] ->
  exists s',
    module_items_to_solve s =
      Return (filter (is_candidate (system_state s) (metadata_default_streams s))
                (modules s)) s' /\
    excludes s' =
      Some (list_to_set (module_id <$> filter (is_disabled (system_state s)) (modules s))) /\
    select_frame (set_excludes (Some ∅) s) s'.
Proof.
  intros Hpend.
  destruct (select_module_items_spec (system_state s) (modules s)
              (set_excludes (Some ∅) s) "" [] ∅ eq_refl) as (s' & Hsel & Hex & Hfr).
  exists s'. split; [|split; [by rewrite Hex, union_empty_r_L | exact Hfr]].
  unfold module_items_to_solve, get_modules, add_modules_without_static_context,
    bind, modify, gets, ret.
  unfold_sack. rewrite Hpend. exact Hsel.
Qed.


Lemma module_solve_returns items s e :
  excludes s = Some e ->
  exists err s',
    module_solve items s = Return ([], err) s' /\
    active_modules_resolved s' = active_modules_resolved s.
Proof.
  intros He. destruct items as [|m items].
  - eexists _, _. split; reflexivity.
  - destruct (module_solve_cases m items s e He) as (s0 & Hf & _ & _ & Hcases).
    destruct Hf as (_ & _ & _ & Hr & _).
    cbv zeta in Hcases.
    destruct Hcases as [(_ & Hrun)|[(_ & _ & Hrun)|[(_ & _ & _ & Hrun)|
                       [(_ & _ & _ & _ & Hrun)|(_ & _ & _ & _ & Hrun)]]]];
      eexists _, _; (split; [exact Hrun|]); exact Hr.
Qed.

Lemma active_module_values_empty : active_module_values ∅ = [].
Proof. unfold active_module_values. by rewrite map_to_list_empty. Qed.

(** The list handed out holds the values of the map, each as often as the
    map holds it. *)
Lemma active_module_values_perm (active : gmap nat ModuleItem) :
  active_module_values active ≡ₚ (map_to_list active).*2.
Proof.
  unfold active_module_values. by rewrite merge_sort_Permutation.
Qed.

(** C10. Whenever [resolve_active_module_items] returns, whatever the
    severity, the resolved flag is set; and with no record pending it does
    return. With the flag set, [get_active_modules] returns without an
    event, so without resolving, and changes neither the map nor the flag
    nor the exclude set. What it returns is the cached map: when the
    registry is not empty, or when the map holds records of the registry
    only, the list returned holds exactly the values of the map as it
    stood, each once per entry, so it is empty exactly when the map is. *)
Theorem resolution_flag_cached (s : ModuleSack) :
  (forall r s', resolve_active_module_items s = Return r s' ->
                active_modules_resolved s' = true) /\
  (modules_without_static_context s = [] ->
   exists r s', resolve_active_module_items s = Return r s' /\
                active_modules_resolved s' = true) /\
  (active_modules_resolved s = true ->
   exists ms s',
     get_active_modules s = Return ms s' /\
     (modules s' <> [] \/
      map_Forall (fun _ m => m ∈ modules s) (active_modules s) ->
      ms ≡ₚ (map_to_list (active_modules s)).*2 /\
      (forall m, m ∈ ms <-> exists i, active_modules s !! i = Some m) /\
      length ms = size (active_modules s) /\
      (ms = [] <-> active_modules s = ∅)) /\
     active_modules s' = active_modules s /\
     active_modules_resolved s' = true /\
     excludes s' = excludes s /\
     trace s' = trace s).
Proof.
  split; [|split].
  - intros r s'. unfold resolve_active_module_items, bind, modify, ret.
    destruct (module_items_to_solve s) as [items s1|]; [|discriminate].
    destruct (module_solve items s1) as [problems s2|]; [|discriminate].
    intros [= <- <-]. reflexivity.
  - intros Hpend.
    destruct (module_items_to_solve_committed s Hpend) as (s1 & Hsel & Hex & _).
    destruct (module_solve_returns
                (filter (is_candidate (system_state s) (metadata_default_streams s))
                   (modules s)) s1 _ Hex) as (err & s2 & Hsolve & _).
    unfold resolve_active_module_items, bind, modify, ret.
    rewrite Hsel, Hsolve. eexists _, _. split; reflexivity.
  - intros Hres.
    destruct (get_modules_spec s) as (s1 & news & Hrun & Hmods & _ & _ & Hfr).
    destruct Hfr as (Ha & Hex & _ & _ & _ & Hr & _ & _ & _ & _ & _ & _ & Htr).
    assert (Hvals : forall ms : list ModuleItem,
      ms ≡ₚ (map_to_list (active_modules s)).*2 ->
      ms ≡ₚ (map_to_list (active_modules s)).*2 /\
      (forall m, m ∈ ms <-> exists i, active_modules s !! i = Some m) /\
      length ms = size (active_modules s) /\
      (ms = [] <-> active_modules s = ∅)).
    { intros ms Hperm. split; [exact Hperm|].
      assert (Hlen : length ms = size (active_modules s)).
      { by rewrite Hperm, length_fmap, length_map_to_list. }
      split; [|split; [exact Hlen|]].
      - intros m. rewrite Hperm, list_elem_of_fmap. split.
        + intros ([i x] & -> & Hx). exists i. by apply elem_of_map_to_list in Hx.
        + intros (i & Hi). exists (i, m). split; [done|]. by apply elem_of_map_to_list.
      - rewrite <- map_size_empty_iff, <- Hlen. split; [by intros ->|].
        by intros ?%nil_length_inv. }
    unfold get_active_modules, bind, gets, ret. rewrite Hrun.
    destruct (modules s1) as [|m ms] eqn:E.
    + eexists _, s1. split; [reflexivity|]. rewrite E.
      split; [|split; [congruence|]; split; [congruence|]; by split].
      intros [Hne|Hwf]; [done|].
      assert (Hempty : active_modules s = ∅).
      { apply map_eq. intros i. rewrite lookup_empty.
        destruct (active_modules s !! i) as [x|] eqn:Hx; [|done].
        apply Hwf in Hx. symmetry in Hmods. apply app_eq_nil in Hmods as [Hnil _].
        rewrite Hnil in Hx. by apply elem_of_nil in Hx. }
      apply Hvals. by rewrite Hempty, map_to_list_empty.
    + rewrite Hr, Hres, Ha. eexists _, s1. split; [reflexivity|]. rewrite E.
      split; [intros _; apply Hvals, active_module_values_perm|].
      split; [done|]. split; [congruence|]. by split.
Qed.

(** ** Properties of the modular filter *)

Lemma collect_artifact_include d rpm :
  include_NEVRAs (collect_artifact d rpm) = include_NEVRAs d /\
  exclude_NEVRAs (collect_artifact d rpm) = exclude_NEVRAs d.
Proof.
  unfold collect_artifact. destruct (nevra_parse rpm) as [|nevra ?]; [done|].
  by case_decide.
Qed.

Lemma collect_artifacts_include arts : forall d,
  include_NEVRAs (fold_left collect_artifact arts d) = include_NEVRAs d /\
  exclude_NEVRAs (fold_left collect_artifact arts d) = exclude_NEVRAs d.
Proof.
  induction arts as [|rpm arts IH]; intros d; [done|].
  cbn [fold_left]. destruct (IH (collect_artifact d rpm)) as [-> ->].
  apply collect_artifact_include.
Qed.

Lemma artifacts_of_cons active b m ms :
  artifacts_of active b (m :: ms) =
  (if decide (is_active active m = b) then get_artifacts m else []) ++
  artifacts_of active b ms.
Proof.
  unfold artifacts_of. rewrite filter_cons. by case_decide.
Qed.

Lemma collect_modules_include active ms : forall d,
  include_NEVRAs (fold_left (collect_module active) ms d) =
    include_NEVRAs d ++ artifacts_of active true ms /\
  exclude_NEVRAs (fold_left (collect_module active) ms d) =
    exclude_NEVRAs d ++ artifacts_of active false ms.
Proof.
  induction ms as [|m ms IH]; intros d.
  - unfold artifacts_of. simpl. by rewrite !app_nil_r.
  - cbn [fold_left]. destruct (IH (collect_module active d m)) as [-> ->].
    rewrite !artifacts_of_cons. unfold collect_module.
    destruct (is_active active m) eqn:E; cbn [include_NEVRAs exclude_NEVRAs].
    + destruct (collect_artifacts_include (get_artifacts m) d) as [-> ->].
      rewrite decide_True by done. rewrite decide_False by done.
      by rewrite <- app_assoc.
    + rewrite decide_False by done. rewrite decide_True by done.
      by rewrite <- app_assoc.
Qed.

Lemma elem_of_artifacts_of active b ms x :
  x ∈ artifacts_of active b ms <->
  exists m, m ∈ ms /\ is_active active m = b /\ x ∈ get_artifacts m.
Proof.
  unfold artifacts_of. rewrite list_elem_of_join. split.
  - intros (arts & Hx & Harts). apply list_elem_of_fmap in Harts as (m & -> & Hm).
    apply list_elem_of_filter in Hm as [Hb Hm]. by exists m.
  - intros (m & Hm & Hb & Hx). exists (get_artifacts m). split; [done|].
    apply list_elem_of_fmap. exists m. split; [done|]. by apply list_elem_of_filter.
Qed.

Lemma elem_of_query_filter pkgs test q i :
  i ∈ query_filter pkgs test q <->
  (exists p, pkgs !! i = Some p /\ test p = true) /\ i ∈ q.
Proof.
  unfold query_filter. rewrite elem_of_filter. split.
  - intros [Ht Hq]. split; [|done].
    destruct (pkgs !! i) as [p|]; [by exists p | done].
  - intros [(p & Hp & Ht) Hq]. split; [|done]. by rewrite Hp.
Qed.

(** A package that a pattern of the include set matches is in none of the
    three exclude queries. *)
Lemma exclude_queries_spare_included d pkgs rs published i p x :
  pkgs !! i = Some p -> x ∈ include_NEVRAs d -> nevra_match x p = true ->
  (i ∉ (exclude_queries d pkgs rs published).1.1) /\
  (i ∉ (exclude_queries d pkgs rs published).1.2) /\
  (i ∉ (exclude_queries d pkgs rs published).2).
Proof.
  intros Hp Hx Hmatch.
  destruct (decide (i ∈ published)) as [Hpub|Hpub].
  - unfold exclude_queries. cbn [fst snd].
    unfold filter_nevra, filter_provides, filter_name, filter_arch, filter_repo_id_neq.
    repeat split; intros Hq; apply elem_of_difference in Hq as [Hq _];
      rewrite ?elem_of_union, !elem_of_query_filter, elem_of_difference in Hq; tauto.
  - assert (Hin : i ∈ filter_nevra pkgs (include_NEVRAs d) (dom pkgs ∖ published)).
    { apply elem_of_query_filter. split.
      - exists p. split; [done|]. apply existsb_exists. exists x.
        split; [by apply list_elem_of_In | done].
      - apply elem_of_difference. split; [|done]. apply elem_of_dom. by exists p. }
    unfold exclude_queries. cbn [fst snd].
    repeat split; intros Hq; apply elem_of_difference in Hq as [_ Hq]; by apply Hq.
Qed.

(** C5. The modular filter returns and publishes three exclude queries, one
    set and two added. A package matched by an artifact that occurs both
    among the artifacts of an active record and among those of an inactive
    one is in none of the three, nor in the module excludes of the package
    sack. *)
Theorem include_wins_over_exclude (s : ModuleSack) :
  exists s' q1 q2 q3,
    module_filtering s = Return tt s' /\
    trace s' = trace s ++
      [EvSetModuleExcludes q1; EvAddModuleExcludes q2; EvAddModuleExcludes q3] /\
    module_excludes s' = q1 ∪ q2 ∪ q3 /\
    forall a b x i p,
      a ∈ modules s' -> is_active (active_modules s') a = true -> x ∈ get_artifacts a ->
      b ∈ modules s' -> is_active (active_modules s') b = false -> x ∈ get_artifacts b ->
      rpm_packages s' !! i = Some p -> nevra_match x p = true ->
      (i ∉ q1) /\ (i ∉ q2) /\ (i ∉ q3) /\ (i ∉ module_excludes s').
Proof.
  destruct (get_modules_spec s) as (s1 & news & Hrun & Hmods & _ & _ & Hfr).
  destruct Hfr as (Ha & _ & _ & _ & _ & _ & _ & _ & _ & Hpk & Hrp & _ & Htr).
  unfold module_filtering, collect_data_for_modular_filtering, bind, gets, ret.
  rewrite Hrun.
  set (d := fold_left (collect_module (active_modules s1)) (modules s1)
              {| include_NEVRAs := []; exclude_NEVRAs := []; names := [];
                 src_names := []; reldep_name_list := [] |}).
  pose proof (exclude_queries_spare_included d (rpm_packages s1) (repos s1)
                (module_excludes s1)) as Hspare.
  destruct (exclude_queries d (rpm_packages s1) (repos s1) (module_excludes s1))
    as [[q1 q2] q3].
  cbn [fst snd] in Hspare.
  eexists _, q1, q2, q3. split; [reflexivity|]. unfold_sack.
  split; [by rewrite Htr, <- !app_assoc|]. split; [reflexivity|].
  intros a b x i p Hain Hact Hxa _ _ _ Hp Hmatch.
  assert (Hinc : x ∈ include_NEVRAs d).
  { unfold d. destruct (collect_modules_include (active_modules s1) (modules s1)
      {| include_NEVRAs := []; exclude_NEVRAs := []; names := [];
         src_names := []; reldep_name_list := [] |}) as [-> _].
    cbn [include_NEVRAs app]. apply elem_of_artifacts_of. by exists a. }
  destruct (Hspare i p x Hp Hinc Hmatch) as (H1 & H2 & H3).
  split; [done|]. split; [done|]. split; [done|].
  rewrite !elem_of_union. tauto.
Qed.

(** ** Further properties: the encoding of the module state *)

(** X1. Decoding the text of a module state gives the state back; so the
    three states have three different texts. *)
Theorem module_state_string_round_trip (state : ModuleState) :
  module_state_from_string (module_state_to_string state) = ValidState state /\
  forall state', module_state_to_string state' = module_state_to_string state ->
                 state' = state.
Proof.
  split; [by destruct state|].
  intros state'. by destruct state, state'.
Qed.

(** X2. A string decodes to a state exactly when it is the text of that
    state; any other string, whatever its case or spacing, is refused with an
    invalid-state error that carries the string. *)
Theorem module_state_from_string_exact (text : string) :
  match module_state_from_string text with
  | ValidState state => module_state_to_string state = text
  | InvalidModuleState refused =>
      refused = text /\ forall state, module_state_to_string state <> text
  end.
Proof.
  unfold module_state_from_string. repeat case_decide; subst; try reflexivity.
  split; [reflexivity|]. intros state Heq. destruct state; simpl in Heq; congruence.
Qed.

(** ** Further properties: defaults and the resolver *)

(** X3. The default stream of a name is read from the metadata on every
    call: the answer is the metadata's default, the empty string when the
    name has none, whatever the cached copy of the defaults held; the call
    leaves the cache equal to the metadata's defaults, and asking again gives
    the same answer and changes nothing more. *)
Theorem get_default_stream_fresh (name : string) (s : ModuleSack) :
  exists s',
    get_default_stream name s =
      Return (default "" (metadata_default_streams s !! name)) s' /\
    module_defaults s' = metadata_default_streams s /\
    (metadata_default_streams s !! name = None ->
     get_default_stream name s = Return "" s') /\
    (forall stale,
       get_default_stream name (set_module_defaults stale s) =
       get_default_stream name s) /\
    get_default_stream name s' =
      Return (default "" (metadata_default_streams s !! name)) s'.
Proof.
  eexists. split; [reflexivity|]. split; [reflexivity|]. split; [|split].
  - intros Hnone. unfold get_default_stream, bind, modify, gets, ret.
    unfold_sack. by rewrite Hnone.
  - intros stale. reflexivity.
  - reflexivity.
Qed.

(** X4. The resolver is idempotent: it returns with no record pending, and
    run again right after it changes nothing; with no pending record it
    changes nothing the first time either, whatever the registry holds. *)
Theorem resolver_idempotent (s : ModuleSack) :
  exists s1,
    add_modules_without_static_context s = Return tt s1 /\
    modules_without_static_context s1 = [] /\
    add_modules_without_static_context s1 = Return tt s1 /\
    (modules_without_static_context s = [] -> s1 = s).
Proof.
  destruct (add_modules_without_static_context_spec s)
    as (s1 & news & Hrun & _ & _ & Hpend & _).
  exists s1. split; [exact Hrun|]. split; [exact Hpend|]. split.
  - unfold add_modules_without_static_context, bind, gets. by rewrite Hpend.
  - intros Hnone. revert Hrun.
    unfold add_modules_without_static_context, bind, gets. rewrite Hnone.
    by intros [= <-].
Qed.

(** ** Further properties: the Active Module Map *)

(** The entry of the rebuilt map under an id: the last record of the
    registry with that id and a matching label, or else the earlier entry. *)
Lemma activate_matching_lookup_exact names ms active i :
  activate_matching names ms active !! i =
  match last (matching_records names i ms) with
  | Some m => Some m
  | None => active !! i
  end.
Proof.
  induction ms as [|x ms IH] using rev_ind; [done|].
  rewrite activate_matching_snoc. unfold matching_records in *.
  rewrite filter_app, filter_cons, filter_nil.
  case_decide as Hx.
  - destruct (decide (module_id x = i)) as [Hi|Hi].
    + subst i. rewrite lookup_insert_eq. rewrite decide_True by done.
      by rewrite last_snoc.
    + rewrite lookup_insert_ne by done.
      rewrite decide_False by (by intros [? _]). rewrite app_nil_r. apply IH.
  - rewrite decide_False by (by intros [_ ?]). rewrite app_nil_r. apply IH.
Qed.

Lemma activate_matching_keyed names ms base :
  keyed_by_item_id ms base ->
  keyed_by_item_id ms (activate_matching names ms base).
Proof.
  intros Hb i m Hl.
  apply activate_matching_lookup in Hl as [(? & ? & _)|Hl]; [done|].
  by apply Hb.
Qed.

Lemma keyed_by_item_id_empty ms : keyed_by_item_id ms ∅.
Proof. apply map_Forall_empty. Qed.

Lemma keyed_by_item_id_grow ms news a :
  keyed_by_item_id ms a -> keyed_by_item_id (ms ++ news) a.
Proof.
  intros H i m Hl. destruct (H i m Hl) as [? ?]. split; [done|].
  apply elem_of_app. by left.
Qed.

Lemma elem_of_install_names p goal m :
  get_name_stream_staticcontext m ∈ install_names p goal <-> names_an_install p goal m.
Proof.
  unfold install_names, names_an_install.
  rewrite elem_of_list_to_set, list_elem_of_omap, Exists_exists.
  split; intros (id & Hid & Hname); exists id; split; try done;
    by apply list_elem_of_In.
Qed.

Lemma matching_records_installed p goal i ms :
  matching_records (install_names p goal) i ms = installed_records p goal i ms.
Proof.
  unfold matching_records, installed_records. apply list_filter_iff.
  intros m. by rewrite elem_of_install_names.
Qed.

(** X5. What [set_active_modules] leaves under each item id: the last record
    of the registry that carries the id and whose label is the name, in the
    pool, of a solvable among the goal's installs; when there is none, the
    entry the map had if the goal has a transaction, and nothing if it has
    none. The map is all it changes. *)
Theorem set_active_modules_lookup (goal : GoalResult) (s : ModuleSack) :
  exists s',
    set_active_modules goal s = Return tt s' /\
    s' = set_active_map (active_modules s') s /\
    forall i,
      active_modules s' !! i =
      match last (installed_records (pool s) goal i (modules s)) with
      | Some m => Some m
      | None => if get_transaction goal then active_modules s !! i else None
      end.
Proof.
  eexists. split; [apply set_active_modules_spec|].
  split; [by sack_ext|].
  intros i. unfold_sack. unfold rebuilt_map.
  rewrite activate_matching_lookup_exact, matching_records_installed.
  destruct (last _); [done|]. by destruct (get_transaction goal).
Qed.

(** X6. Activating the installs of the same goal twice is the same as doing
    it once. *)
Theorem set_active_modules_idempotent (goal : GoalResult) (s : ModuleSack) :
  exists s',
    set_active_modules goal s = Return tt s' /\
    set_active_modules goal s' = Return tt s'.
Proof.
  eexists. split; [apply set_active_modules_spec|].
  rewrite set_active_modules_spec. f_equal. sack_ext.
  unfold rebuilt_map. unfold_sack.
  apply map_eq. intros i. rewrite !activate_matching_lookup_exact.
  destruct (last _) as [m|] eqn:Hlast; [done|].
  destruct (get_transaction goal); [|done].
  by rewrite activate_matching_lookup_exact, Hlast.
Qed.

(** ** Further properties: the tiered goal solver *)

Lemma criticals_app tr1 tr2 :
  criticals (tr1 ++ tr2) = criticals tr1 ++ criticals tr2.
Proof. apply omap_app. Qed.

(** The sack the refresh and the index construction hand to the goals. *)
Lemma solve_preamble_state s :
  exists s0,
    (recompute_considered_in_pool ;; make_provides_ready) s = Return tt s0 /\
    modules s0 = modules s /\
    active_modules s0 = active_modules s /\
    excludes s0 = excludes s /\
    system_state s0 = system_state s /\
    considered (pool s0) =
      (if considered_uptodate s then considered (pool s) else Some (considered_of s)) /\
    considered_uptodate s0 = true /\
    provides_ready s0 = true /\
    criticals (trace s0) = criticals (trace s) /\
    resolutions (trace s0) = resolutions (trace s) /\
    recomputations (trace s0) =
      recomputations (trace s) + (if considered_uptodate s then 0 else 1).
Proof.
  unfold bind.
  destruct (considered_uptodate s) eqn:E.
  - rewrite (recompute_considered_clean s E).
    destruct (provides_ready s) eqn:R.
    + exists s. rewrite (make_provides_ready_done s R). by repeat split.
    + eexists. rewrite (make_provides_ready_built s R).
      split; [reflexivity|]. unfold_sack.
      rewrite criticals_app, resolutions_app, recomputations_app. cbn.
      rewrite !app_nil_r. by repeat split.
  - rewrite (recompute_considered_dirty s E).
    set (s1 := set_considered_uptodate true _).
    destruct (provides_ready s1) eqn:R.
    + exists s1. rewrite (make_provides_ready_done s1 R). unfold s1. unfold_sack.
      rewrite criticals_app, resolutions_app, recomputations_app. cbn.
      rewrite !app_nil_r. by repeat split.
    + eexists. rewrite (make_provides_ready_built s1 R).
      split; [reflexivity|]. unfold s1. unfold_sack.
      rewrite !criticals_app, !resolutions_app, !recomputations_app. cbn.
      rewrite !app_nil_r, Nat.add_0_r. by repeat split.
Qed.

(** The goals of a solve, run from the sack [s0] the refresh and the index
    construction lead to. *)
Lemma module_solve_from m items s s0 e :
  (recompute_considered_in_pool ;; make_provides_ready) s = Return tt s0 ->
  modules s0 = modules s -> active_modules s0 = active_modules s ->
  excludes s0 = Some e -> system_state s0 = system_state s ->
  let st := system_state s in
  let cands := m :: items in
  let r t := resolve (pool s0) (tier_jobs st cands t) in
  let news := [EvGoalNew Strict; EvGoalNew Best; EvGoalNew WeakPreferred; EvGoalNew Weak] in
  let ev t x := EvResolve t (tier_jobs st cands t) (pool s0) (Some x) (r t) in
  let e' := list_to_set (list_conflicting (r WeakPreferred)) ∪ e in
  let fin evs ex act :=
    set_active_map act (set_excludes (Some ex) (set_trace (trace s0 ++ news ++ evs) s0)) in
  let act t :=
    activate_matching (install_names (pool s0) (r t)) (modules s)
      (if get_transaction (r t) then active_modules s else ∅) in
  (goal_ret (r Strict) = NO_PROBLEM /\
   module_solve cands s = Return ([], NO_ERROR) (fin [ev Strict e] e (act Strict))) \/
  (goal_ret (r Strict) <> NO_PROBLEM /\ goal_ret (r Best) = NO_PROBLEM /\
   module_solve cands s =
     Return ([], ERROR_IN_DEFAULTS) (fin [ev Strict e; ev Best e] e (act Best))) \/
  (goal_ret (r Strict) <> NO_PROBLEM /\ goal_ret (r Best) <> NO_PROBLEM /\
   goal_ret (r WeakPreferred) = NO_PROBLEM /\
   module_solve cands s =
     Return ([], ERROR_IN_LATEST)
       (fin [ev Strict e; ev Best e; ev WeakPreferred e] e (act WeakPreferred))) \/
  (goal_ret (r Strict) <> NO_PROBLEM /\ goal_ret (r Best) <> NO_PROBLEM /\
   goal_ret (r WeakPreferred) <> NO_PROBLEM /\ goal_ret (r Weak) = NO_PROBLEM /\
   module_solve cands s =
     Return ([], ERROR)
       (fin [ev Strict e; ev Best e; ev WeakPreferred e; ev Weak e'] e' (act Weak))) \/
  (goal_ret (r Strict) <> NO_PROBLEM /\ goal_ret (r Best) <> NO_PROBLEM /\
   goal_ret (r WeakPreferred) <> NO_PROBLEM /\ goal_ret (r Weak) <> NO_PROBLEM /\
   module_solve cands s =
     Return ([], CANNOT_RESOLVE_MODULES)
       (fin [ev Strict e; ev Best e; ev WeakPreferred e; ev Weak e';
             EvCritical critical_message] e' ∅)).
Proof.
  intros Hpre Hmods Ha Hex0 Hst st cands r news ev e' fin act.
  pose proof (for_each_excludes_add (list_conflicting (r WeakPreferred))) as Hadd.
  eassert (Hchain : module_solve cands s = _).
  { unfold module_solve. cbn [cands].
    rewrite bind_assoc. unfold bind at 1. rewrite Hpre.
    unfold bind, emit, modify, gets, goal_resolve, ret.
    cbn [trace pool excludes system_state set_trace set_excludes set_active_map].
    rewrite add_module_jobs_fold, Hst.
    cbn [goal_strict goal_best goal_ goal_weak app].
    reflexivity. }
  rewrite Hchain. clear Hchain.
  change (resolve (pool s0) (tier_jobs (system_state s) cands Strict)) with (r Strict).
  destruct (decide (goal_ret (r Strict) = NO_PROBLEM)) as [H1|H1].
  { left. split; [exact H1|]. rewrite set_active_modules_spec. f_equal.
    unfold fin, act, ev, news, rebuilt_map.
    sack_ext; rewrite ?Hmods, ?Ha, ?Hex0, <- ?app_assoc; reflexivity. }
  right. cbv beta. cbn [pool excludes trace set_trace set_excludes].
  change (resolve (pool s0) (tier_jobs (system_state s) cands Best)) with (r Best).
  destruct (decide (goal_ret (r Best) = NO_PROBLEM)) as [H2|H2].
  { left. split; [exact H1|]. split; [exact H2|]. rewrite set_active_modules_spec. f_equal.
    unfold fin, act, ev, news, rebuilt_map.
    sack_ext; rewrite ?Hmods, ?Ha, ?Hex0, <- ?app_assoc; reflexivity. }
  right. cbv beta. cbn [pool excludes trace set_trace set_excludes].
  change (resolve (pool s0) (tier_jobs (system_state s) cands WeakPreferred))
    with (r WeakPreferred).
  destruct (decide (goal_ret (r WeakPreferred) = NO_PROBLEM)) as [H3|H3].
  { left. do 2 (split; [assumption|]). split; [exact H3|].
    rewrite set_active_modules_spec. f_equal.
    unfold fin, act, ev, news, rebuilt_map.
    sack_ext; rewrite ?Hmods, ?Ha, ?Hex0, <- ?app_assoc; reflexivity. }
  right. cbv beta.
  rewrite (Hadd _ e) by exact Hex0.
  cbn [pool excludes trace set_trace set_excludes].
  change (resolve (pool s0) (tier_jobs (system_state s) cands Weak)) with (r Weak).
  destruct (decide (goal_ret (r Weak) = NO_PROBLEM)) as [H4|H4].
  { left. do 3 (split; [assumption|]). split; [exact H4|].
    rewrite set_active_modules_spec. f_equal.
    unfold fin, act, ev, news, rebuilt_map.
    sack_ext; rewrite ?Hmods, ?Ha, ?Hex0, <- ?app_assoc; reflexivity. }
  right. do 4 (split; [assumption|]). cbv beta.
  f_equal.
  unfold fin, act, ev, news, rebuilt_map.
  sack_ext; rewrite ?Hex0, <- ?app_assoc; reflexivity.
Qed.

(** What a solve of a non-empty candidate list returns and leaves, in terms
    of the first goal free of problems. *)
Lemma module_solve_outcome m items s e :
  excludes s = Some e ->
  exists s',
    let cands := m :: items in
    let r t := resolve (pool s') (tier_jobs (system_state s) cands t) in
    module_solve cands s =
      Return ([], from_option tier_error CANNOT_RESOLVE_MODULES (winner r)) s' /\
    modules s' = modules s /\
    considered (pool s') =
      (if considered_uptodate s then considered (pool s) else Some (considered_of s)) /\
    considered_uptodate s' = true /\
    provides_ready s' = true /\
    excludes s' = Some (excludes_after e r) /\
    active_modules s' =
      match winner r with
      | Some t => activate_matching (install_names (pool s') (r t)) (modules s)
                    (if get_transaction (r t) then active_modules s else ∅)
      | None => ∅
      end /\
    criticals (trace s') =
      criticals (trace s) ++
      match winner r with
      | Some _ => []
      | None => [critical_message]
      end /\
    resolutions (trace s') =
      resolutions (trace s) ++
      ((fun t => (t, tier_jobs (system_state s) cands t, pool s',
                  Some (excludes_at e r t), r t)) <$> attempts r) /\
    recomputations (trace s') =
      recomputations (trace s) + (if considered_uptodate s then 0 else 1).
Proof.
  intros He.
  destruct (solve_preamble_state s)
    as (s0 & Hpre & Hmods & Ha & Hex & Hst & Hc & Hu & Hr & Hcr & Hres & Hrec).
  assert (Hex0 : excludes s0 = Some e) by congruence.
  pose proof (module_solve_from m items s s0 e Hpre Hmods Ha Hex0 Hst) as Hcases.
  cbv zeta in Hcases.
  pose proof (winner_attempts_cases
                (fun t => resolve (pool s0) (tier_jobs (system_state s) (m :: items) t)))
    as (W1 & W2 & W3 & W4 & W5).
  destruct Hcases as [(H1 & Hrun)|[(H1 & H2 & Hrun)|[(H1 & H2 & H3 & Hrun)|
                     [(H1 & H2 & H3 & H4 & Hrun)|(H1 & H2 & H3 & H4 & Hrun)]]]];
    [destruct (W1 H1) as [Hw Hat] | destruct (W2 H1 H2) as [Hw Hat]
    | destruct (W3 H1 H2 H3) as [Hw Hat] | destruct (W4 H1 H2 H3 H4) as [Hw Hat]
    | destruct (W5 H1 H2 H3 H4) as [Hw Hat]];
    match type of Hrun with _ = Return _ ?x => exists x end;
    cbv zeta; unfold excludes_after; unfold_sack; rewrite Hw, Hat;
    (split; [exact Hrun|]); (split; [exact Hmods|]); (split; [exact Hc|]);
    (split; [exact Hu|]); (split; [exact Hr|]); (split; [reflexivity|]);
    (split; [reflexivity|]);
    rewrite !criticals_app, !resolutions_app, !recomputations_app, Hcr, Hres, Hrec;
    (split; [reflexivity|]); (split; [reflexivity|]); cbn; lia.
Qed.

Lemma winner_five (r : Tier -> GoalResult) :
  (goal_ret (r Strict) = NO_PROBLEM /\
   winner r = Some Strict /\ attempts r = [Strict]) \/
  (goal_ret (r Strict) <> NO_PROBLEM /\ goal_ret (r Best) = NO_PROBLEM /\
   winner r = Some Best /\ attempts r = [Strict; Best]) \/
  (goal_ret (r Strict) <> NO_PROBLEM /\ goal_ret (r Best) <> NO_PROBLEM /\
   goal_ret (r WeakPreferred) = NO_PROBLEM /\
   winner r = Some WeakPreferred /\ attempts r = [Strict; Best; WeakPreferred]) \/
  (goal_ret (r Strict) <> NO_PROBLEM /\ goal_ret (r Best) <> NO_PROBLEM /\
   goal_ret (r WeakPreferred) <> NO_PROBLEM /\ goal_ret (r Weak) = NO_PROBLEM /\
   winner r = Some Weak /\ attempts r = [Strict; Best; WeakPreferred; Weak]) \/
  (goal_ret (r Strict) <> NO_PROBLEM /\ goal_ret (r Best) <> NO_PROBLEM /\
   goal_ret (r WeakPreferred) <> NO_PROBLEM /\ goal_ret (r Weak) <> NO_PROBLEM /\
   winner r = None /\ attempts r = [Strict; Best; WeakPreferred; Weak]).
Proof.
  destruct (winner_attempts_cases r) as (W1 & W2 & W3 & W4 & W5).
  destruct (decide (goal_ret (r Strict) = NO_PROBLEM)) as [H1|H1].
  { left. split; [done|]. by apply W1. }
  right. destruct (decide (goal_ret (r Best) = NO_PROBLEM)) as [H2|H2].
  { left. do 2 (split; [done|]). by apply W2. }
  right. destruct (decide (goal_ret (r WeakPreferred) = NO_PROBLEM)) as [H3|H3].
  { left. do 3 (split; [done|]). by apply W3. }
  right. destruct (decide (goal_ret (r Weak) = NO_PROBLEM)) as [H4|H4].
  { left. do 4 (split; [done|]). by apply W4. }
  right. do 4 (split; [done|]). by apply W5.
Qed.

Lemma excludes_after_subseteq e r i : i ∈ e -> i ∈ excludes_after e r.
Proof.
  intros Hi. unfold excludes_after, excludes_at.
  destruct (winner r) as [[]|]; try done; apply elem_of_union; by right.
Qed.

Lemma excludes_after_elem e r i :
  i ∈ excludes_after e r ->
  i ∈ e \/
  (i ∈ list_conflicting (r WeakPreferred) /\
   attempts r = [Strict; Best; WeakPreferred; Weak] /\
   goal_ret (r WeakPreferred) <> NO_PROBLEM).
Proof.
  unfold excludes_after, excludes_at.
  destruct (winner_five r) as [(H1 & -> & _)|[(H1 & H2 & -> & _)|[(H1 & H2 & H3 & -> & _)|
                              [(H1 & H2 & H3 & H4 & -> & Hat)|(H1 & H2 & H3 & H4 & -> & Hat)]]]];
    try (by left);
    (intros [Hi|Hi]%elem_of_union; [right | by left]);
    by apply elem_of_list_to_set in Hi.
Qed.

(** X7. A solve refreshes the considered bitmap at most once, before its
    first goal: every goal of the solve, the Weak one included, is resolved
    against a pool carrying the bitmap the solve started with (when it was
    marked up to date) or the one computed from the exclude set the solve
    started with. That bitmap is the one the solve leaves, marked up to
    date, with the provides ready. *)
Theorem solve_refreshes_bitmap_once
    (items : list ModuleItem) (s : ModuleSack) (e : gset nat) :
  items <> [] -> excludes s = Some e ->
  exists err s' news,
    module_solve items s = Return ([], err) s' /\
    considered (pool s') =
      (if considered_uptodate s then considered (pool s)
       else Some (set_seq 0 (nsolvables (pool s)) ∖ e)) /\
    considered_uptodate s' = true /\
    provides_ready s' = true /\
    recomputations (trace s') =
      recomputations (trace s) + (if considered_uptodate s then 0 else 1) /\
    resolutions (trace s') = resolutions (trace s) ++ news /\
    Forall (fun x => considered x.1.1.2 = considered (pool s')) news.
Proof.
  intros Hne He. destruct items as [|m items]; [done|]. clear Hne.
  destruct (module_solve_outcome m items s e He)
    as (s' & Hrun & _ & Hc & Hu & Hr & _ & _ & _ & Hres & Hrec).
  eexists _, s', _. split; [exact Hrun|].
  split; [rewrite Hc; unfold considered_of; by rewrite He|].
  split; [exact Hu|]. split; [exact Hr|]. split; [exact Hrec|]. split; [exact Hres|].
  apply Forall_fmap, Forall_forall. by intros t _.
Qed.

(** X8. A solve never takes an item out of the exclude set, and adds items
    to it only when its Strict, Best and Weak-preferred goals all have
    problems: then the items added are those the Weak-preferred goal
    reported as conflicting, and the severity is Error or CannotResolve. *)
Theorem solve_excludes_only_conflicts
    (items : list ModuleItem) (s : ModuleSack) (e : gset nat) :
  items <> [] -> excludes s = Some e ->
  exists err s' e' news,
    module_solve items s = Return ([], err) s' /\
    excludes s' = Some e' /\
    resolutions (trace s') = resolutions (trace s) ++ news /\
    e ⊆ e' /\
    (err = NO_ERROR \/ err = ERROR_IN_DEFAULTS \/ err = ERROR_IN_LATEST -> e' = e) /\
    forall i, i ∈ e' -> i ∉ e ->
      (err = ERROR \/ err = CANNOT_RESOLVE_MODULES) /\
      exists jobs p ex r,
        (WeakPreferred, jobs, p, ex, r) ∈ news /\
        goal_ret r <> NO_PROBLEM /\ i ∈ list_conflicting r.
Proof.
  intros Hne He. destruct items as [|m items]; [done|]. clear Hne.
  destruct (module_solve_outcome m items s e He)
    as (s' & Hrun & _ & _ & _ & _ & Hex & _ & _ & Hres & _).
  cbv zeta in Hrun, Hex, Hres.
  set (r := fun t => resolve (pool s') (tier_jobs (system_state s) (m :: items) t)) in *.
  eexists _, s', _, _. split; [exact Hrun|]. split; [exact Hex|]. split; [exact Hres|].
  unfold excludes_after, excludes_at.
  destruct (winner_five r) as [(H1 & -> & ->)|[(H1 & H2 & -> & ->)|[(H1 & H2 & H3 & -> & ->)|
                              [(H1 & H2 & H3 & H4 & -> & ->)|(H1 & H2 & H3 & H4 & -> & ->)]]]];
    cbn [from_option tier_error].
  1-3: split; [done|]; split; [done|]; by intros i Hi Hn.
  all: split; [apply union_subseteq_r|]; (split; [by intros [?|[?|?]]|]);
    intros i [Hi|Hi]%elem_of_union Hn; [|done];
    (split; [by auto|]); eexists _, _, _, _;
    (split; [apply list_elem_of_fmap; exists WeakPreferred;
             split; [reflexivity|]; by repeat constructor|]);
    split; [exact H3 | by apply elem_of_list_to_set in Hi].
Qed.

(** X9. A solve never describes a problem: the list of problems it returns
    is empty whatever the severity. It logs its critical message exactly
    when the severity is CannotResolve, which is exactly when it resolved all
    four goals and every one had problems; the Active Module Map is then
    empty. A solve of no candidates is never in that case. *)
Theorem critical_iff_cannot_resolve
    (items : list ModuleItem) (s : ModuleSack) (e : gset nat) :
  excludes s = Some e ->
  exists err s' news,
    module_solve items s = Return ([], err) s' /\
    resolutions (trace s') = resolutions (trace s) ++ news /\
    criticals (trace s') =
      criticals (trace s) ++
      (if decide (err = CANNOT_RESOLVE_MODULES) then [critical_message] else []) /\
    (err = CANNOT_RESOLVE_MODULES <->
     news.*1.*1.*1.*1 = [Strict; Best; WeakPreferred; Weak] /\
     Forall (fun x => goal_ret x.2 <> NO_PROBLEM) news) /\
    (err = CANNOT_RESOLVE_MODULES -> items <> [] /\ active_modules s' = ∅).
Proof.
  intros He. destruct items as [|m items].
  - exists NO_ERROR, (set_active_map ∅ s), []. split; [reflexivity|]. unfold_sack.
    rewrite !app_nil_r. by repeat split; try intros [? _].
  - destruct (module_solve_outcome m items s e He)
      as (s' & Hrun & _ & _ & _ & _ & _ & Hact & Hcr & Hres & _).
    cbv zeta in Hrun, Hact, Hcr, Hres.
    set (r := fun t => resolve (pool s') (tier_jobs (system_state s) (m :: items) t)) in *.
    eexists _, s', _. split; [exact Hrun|]. split; [exact Hres|].
    rewrite Hcr, Hact.
    destruct (winner_five r) as [(H1 & -> & ->)|[(H1 & H2 & -> & ->)|[(H1 & H2 & H3 & -> & ->)|
                                [(H1 & H2 & H3 & H4 & -> & ->)|(H1 & H2 & H3 & H4 & -> & ->)]]]];
      cbn [from_option tier_error fmap list_fmap fst snd];
      (split; [reflexivity|]); (split; [|done]).
    1-3: by split; [|intros [? _]].
    + split; [done|]. intros [_ Hall].
      apply Forall_cons in Hall as [_ Hall]. apply Forall_cons in Hall as [_ Hall].
      apply Forall_cons in Hall as [_ Hall]. apply Forall_cons in Hall as [Hw _].
      by destruct Hw.
    + split; [|done]. intros _. split; [reflexivity|]. by repeat constructor.
Qed.

(** X10. The solver answering the same on the same pool and jobs, a solve
    repeats itself in two cases. When no candidate is Enabled, the Weak goal
    is given the jobs of the Weak-preferred goal and is resolved against the
    same pool, so it fails as the Weak-preferred one did and the severity is
    never Error. When every candidate is Enabled, the Best goal is given the
    jobs of the Strict goal, and the severity is never ErrorInDefaults. *)
Theorem solve_repeats_a_goal
    (items : list ModuleItem) (s : ModuleSack) (e : gset nat) :
  items <> [] -> excludes s = Some e ->
  exists err s',
    module_solve items s = Return ([], err) s' /\
    let st := system_state s in
    ((forall m, m ∈ items -> module_state_or_available st (get_name m) <> ENABLED) ->
     tier_jobs st items Weak = tier_jobs st items WeakPreferred /\ err <> ERROR) /\
    ((forall m, m ∈ items -> module_state_or_available st (get_name m) = ENABLED) ->
     tier_jobs st items Best = tier_jobs st items Strict /\ err <> ERROR_IN_DEFAULTS).
Proof.
  intros Hne He. destruct items as [|m items]; [done|]. clear Hne.
  destruct (module_solve_outcome m items s e He) as (s' & Hrun & _).
  cbv zeta in Hrun.
  set (r := fun t => resolve (pool s') (tier_jobs (system_state s) (m :: items) t)) in *.
  eexists _, s'. split; [exact Hrun|]. cbv zeta. split.
  - intros Hnone.
    assert (Hjobs : tier_jobs (system_state s) (m :: items) Weak =
                    tier_jobs (system_state s) (m :: items) WeakPreferred).
    { unfold tier_jobs. apply Forall_fmap_ext, Forall_forall. intros x Hx.
      unfold tier_job. by rewrite (bool_decide_eq_false_2 _ (Hnone x Hx)). }
    split; [exact Hjobs|].
    assert (Hr : r Weak = r WeakPreferred) by (unfold r; by rewrite Hjobs).
    destruct (winner_five r) as [(H1 & -> & _)|[(H1 & H2 & -> & _)|[(H1 & H2 & H3 & -> & _)|
                                [(H1 & H2 & H3 & H4 & -> & _)|(H1 & H2 & H3 & H4 & -> & _)]]]];
      cbn [from_option tier_error]; try done.
    rewrite Hr in H4. done.
  - intros Hall.
    assert (Hjobs : tier_jobs (system_state s) (m :: items) Best =
                    tier_jobs (system_state s) (m :: items) Strict).
    { unfold tier_jobs. apply Forall_fmap_ext, Forall_forall. intros x Hx.
      unfold tier_job. by rewrite (bool_decide_eq_true_2 _ (Hall x Hx)). }
    split; [exact Hjobs|].
    assert (Hr : r Best = r Strict) by (unfold r; by rewrite Hjobs).
    destruct (winner_five r) as [(H1 & -> & _)|[(H1 & H2 & -> & _)|[(H1 & H2 & H3 & -> & _)|
                                [(H1 & H2 & H3 & H4 & -> & _)|(H1 & H2 & H3 & H4 & -> & _)]]]];
      cbn [from_option tier_error]; try done.
    rewrite Hr in H2. done.
Qed.

(** ** Further properties: resolution and the query for the active modules *)

(** A solve leaves the registry and the resolved flag alone, and keeps the
    map filed by item id. *)
Lemma module_solve_keeps_keyed items s e :
  excludes s = Some e ->
  exists err s',
    module_solve items s = Return ([], err) s' /\
    modules s' = modules s /\
    modules_without_static_context s' = modules_without_static_context s /\
    active_modules_resolved s' = active_modules_resolved s /\
    (keyed_by_item_id (modules s) (active_modules s) ->
     keyed_by_item_id (modules s') (active_modules s')).
Proof.
  intros He. destruct items as [|m items].
  - eexists _, _. split; [reflexivity|]. unfold_sack.
    do 3 (split; [reflexivity|]). intros _. apply keyed_by_item_id_empty.
  - destruct (module_solve_cases m items s e He) as (s0 & Hf & _ & _ & Hcases).
    destruct Hf as (Hmods & Hpend & _ & Hr & _). cbv zeta in Hcases.
    assert (Hact : forall names tx,
      keyed_by_item_id (modules s) (active_modules s) ->
      keyed_by_item_id (modules s0)
        (activate_matching names (modules s)
           (if tx : bool then active_modules s else ∅))).
    { intros names tx Hk. rewrite Hmods. apply activate_matching_keyed.
      destruct tx; [done | apply keyed_by_item_id_empty]. }
    destruct Hcases as [(_ & Hrun)|[(_ & _ & Hrun)|[(_ & _ & _ & Hrun)|
                       [(_ & _ & _ & _ & Hrun)|(_ & _ & _ & _ & Hrun)]]]];
      eexists _, _; (split; [exact Hrun|]); unfold_sack;
      (split; [exact Hmods|]); (split; [exact Hpend|]); (split; [exact Hr|]);
      first [apply Hact | intros _; apply keyed_by_item_id_empty].
Qed.

(** With no record pending, a resolution returns with the registry as it
    was and the flag set, and keeps the map filed by item id. *)
Lemma resolve_active_module_items_keeps_keyed s :
  modules_without_static_context s = [] ->
  exists r s',
    resolve_active_module_items s = Return r s' /\
    modules s' = modules s /\
    modules_without_static_context s' = [] /\
    active_modules_resolved s' = true /\
    (keyed_by_item_id (modules s) (active_modules s) ->
     keyed_by_item_id (modules s') (active_modules s')).
Proof.
  intros Hpend.
  destruct (module_items_to_solve_committed s Hpend) as (s1 & Hsel & Hex & Hfr).
  destruct Hfr as (Hmods & Hpend1 & Ha & _).
  revert Hmods Hpend1 Ha. unfold_sack. intros Hmods Hpend1 Ha.
  destruct (module_solve_keeps_keyed
              (filter (is_candidate (system_state s) (metadata_default_streams s))
                 (modules s)) s1 _ Hex)
    as (err & s2 & Hsolve & Hm2 & Hp2 & _ & Hk2).
  unfold resolve_active_module_items, bind, modify, ret.
  rewrite Hsel, Hsolve. eexists _, _. split; [reflexivity|]. unfold_sack.
  split; [congruence|]. split; [congruence|]. split; [reflexivity|].
  intros Hk. apply Hk2. by rewrite Ha, Hmods.
Qed.

(** X11. When every entry of the Active Module Map is a record of the
    registry filed under its own item id and no record is pending, a
    resolution returns and keeps it so, whatever the severity it returns. *)
Theorem resolution_files_records_by_id (s : ModuleSack) :
  modules_without_static_context s = [] ->
  keyed_by_item_id (modules s) (active_modules s) ->
  exists r s',
    resolve_active_module_items s = Return r s' /\
    forall i m, active_modules s' !! i = Some m -> module_id m = i /\ m ∈ modules s'.
Proof.
  intros Hpend Hk.
  destruct (resolve_active_module_items_keeps_keyed s Hpend)
    as (r & s' & Hrun & _ & _ & _ & Hk').
  exists r, s'. split; [exact Hrun|]. intros i m Hl. by apply (Hk' Hk i m).
Qed.

#[local] Instance id_le_total : Total id_le.
Proof. intros a b. unfold id_le. lia. Qed.

#[local] Instance id_le_trans : Transitive id_le.
Proof. intros a b c. unfold id_le. lia. Qed.

(** The values of a map filed by item id come out in strictly ascending
    order of item id, and are the records the map holds. *)
Lemma active_module_values_sorted ms a :
  keyed_by_item_id ms a ->
  StronglySorted (fun x y => module_id x < module_id y) (active_module_values a) /\
  forall m, m ∈ active_module_values a <-> a !! module_id m = Some m.
Proof.
  intros Hk. unfold active_module_values.
  set (l := merge_sort id_le (map_to_list a)).
  assert (Hperm : l ≡ₚ map_to_list a) by apply merge_sort_Permutation.
  assert (Hin : forall i m, (i, m) ∈ l <-> a !! i = Some m).
  { intros i m. rewrite Hperm. apply elem_of_map_to_list. }
  assert (Hnd : NoDup l.*1).
  { rewrite Hperm. apply NoDup_fst_map_to_list. }
  assert (Hss : StronglySorted id_le l) by (apply StronglySorted_merge_sort; apply _).
  assert (Hid : forall x, x ∈ l -> module_id x.2 = x.1).
  { intros [i m] Hx. apply Hin in Hx. by destruct (Hk i m Hx). }
  split.
  - clear Hperm Hin. induction Hss as [|x l' Hss IH Hall]; [constructor|].
    rewrite fmap_cons in Hnd. apply NoDup_cons in Hnd as [Hx Hnd].
    rewrite fmap_cons. constructor.
    + apply IH; [done|]. intros y Hy. apply Hid. by right.
    + apply Forall_fmap, Forall_forall. intros y Hy. cbn.
      rewrite Forall_forall in Hall. specialize (Hall y Hy). unfold id_le in Hall.
      rewrite (Hid x) by left. rewrite (Hid y) by (by right).
      assert (x.1 <> y.1).
      { intros Heq. apply Hx. rewrite Heq. apply list_elem_of_fmap. by exists y. }
      lia.
  - intros m. rewrite list_elem_of_fmap. split.
    + intros ([i x] & -> & Hx). pose proof (Hid _ Hx) as Heq. cbn in *.
      rewrite Heq. by apply Hin.
    + intros Hm. exists (module_id m, m). split; [done|]. by apply Hin.
Qed.

(** What the query for the active modules returns and leaves. *)
Lemma get_active_modules_spec s :
  exists ms s',
    get_active_modules s = Return ms s' /\
    modules_without_static_context s' = [] /\
    ms = match modules s' with
         | [] => []
         | _ => active_module_values (active_modules s')
         end /\
    (modules s' <> [] -> active_modules_resolved s' = true) /\
    (keyed_by_item_id (modules s) (active_modules s) ->
     keyed_by_item_id (modules s') (active_modules s')) /\
    modules s `prefix_of` modules s'.
Proof.
  destruct (get_modules_spec s) as (s1 & news & Hrun & Hmods & _ & Hpend & Hfr).
  assert (Hpre : modules s `prefix_of` modules s1) by (by exists news).
  destruct Hfr as (Ha & _).
  assert (Hk1 : keyed_by_item_id (modules s) (active_modules s) ->
                keyed_by_item_id (modules s1) (active_modules s1)).
  { intros Hk. rewrite Ha, Hmods. by apply keyed_by_item_id_grow. }
  unfold get_active_modules, bind, gets, ret. rewrite Hrun.
  destruct (modules s1) as [|m ms] eqn:E.
  - eexists _, s1. split; [reflexivity|]. rewrite E.
    split; [exact Hpend|]. split; [reflexivity|]. split; [by intros ?|].
    split; [exact Hk1 | exact Hpre].
  - destruct (active_modules_resolved s1) eqn:R.
    + eexists _, s1. split; [reflexivity|]. rewrite E.
      split; [exact Hpend|]. split; [reflexivity|]. split; [by intros _|].
      split; [exact Hk1 | exact Hpre].
    + destruct (resolve_active_module_items_keeps_keyed s1 Hpend)
        as (r & s2 & Hres & Hm2 & Hp2 & Hr2 & Hk2).
      rewrite Hres. eexists _, s2. split; [reflexivity|].
      split; [exact Hp2|]. split; [by rewrite Hm2, E|]. split; [done|].
      split; [intros Hk; apply Hk2; rewrite E; by apply Hk1|].
      rewrite Hm2, E. exact Hpre.
Qed.

(** X12. The query for the active modules returns them in strictly
    ascending order of item id, so each once; they are the records the
    Active Module Map holds when the query returns, and all are records of
    the registry. *)
Theorem get_active_modules_sorted (s : ModuleSack) :
  keyed_by_item_id (modules s) (active_modules s) ->
  exists ms s',
    get_active_modules s = Return ms s' /\
    StronglySorted (fun x y => module_id x < module_id y) ms /\
    (forall m, m ∈ ms <-> active_modules s' !! module_id m = Some m) /\
    (forall m, m ∈ ms -> m ∈ modules s').
Proof.
  intros Hk.
  destruct (get_active_modules_spec s) as (ms & s' & Hrun & _ & Hms & _ & Hk' & _).
  specialize (Hk' Hk).
  destruct (active_module_values_sorted _ _ Hk') as [Hsorted Hin].
  exists ms, s'. split; [exact Hrun|].
  assert (Hvals : ms = active_module_values (active_modules s')).
  { rewrite Hms. destruct (modules s') as [|x xs] eqn:E; [|done].
    assert (Hempty : active_modules s' = ∅).
    { apply map_eq. intros i. rewrite lookup_empty.
      destruct (active_modules s' !! i) as [x|] eqn:Hx; [|done].
      destruct (Hk' i x Hx) as [_ Hxin]. by apply elem_of_nil in Hxin. }
    by rewrite Hempty, active_module_values_empty. }
  rewrite Hvals. split; [exact Hsorted|]. split; [exact Hin|].
  intros m Hm%Hin. by destruct (Hk' _ _ Hm).
Qed.

(** X13. A second query for the active modules right after a first returns
    the same list and changes nothing: it commits nothing and resolves
    nothing. *)
Theorem get_active_modules_stable (s : ModuleSack) :
  exists ms s',
    get_active_modules s = Return ms s' /\
    get_active_modules s' = Return ms s'.
Proof.
  destruct (get_active_modules_spec s) as (ms & s' & Hrun & Hpend & Hms & Hr & _ & _).
  exists ms, s'. split; [exact Hrun|].
  unfold get_active_modules, get_modules, add_modules_without_static_context,
    bind, gets, ret.
  rewrite Hpend. cbn. rewrite Hms.
  destruct (modules s') as [|x xs] eqn:E; [reflexivity|].
  rewrite Hr by done. reflexivity.
Qed.

(** X14. A resolution rebuilds the exclude set from scratch but trusts the
    considered bitmap when it is marked up to date. With no record pending
    and the bitmap so marked: every item the resolution leaves excluded is
    the item of a Disabled record or one its Weak-preferred goal reported
    as conflicting, and every Disabled record's item is excluded; yet the
    bitmap is not recomputed, every goal is resolved against a pool carrying
    the bitmap the resolution started with, and that bitmap is left in the
    pool, still marked up to date. *)
Theorem resolution_trusts_marked_bitmap (s : ModuleSack) :
  considered_uptodate s = true ->
  modules_without_static_context s = [] ->
  exists r s' e' news,
    resolve_active_module_items s = Return r s' /\
    excludes s' = Some e' /\
    (forall m, m ∈ modules s ->
       module_state_or_available (system_state s) (get_name m) = DISABLED ->
       module_id m ∈ e') /\
    (forall i, i ∈ e' ->
       (exists m, m ∈ modules s /\ module_id m = i /\
                  module_state_or_available (system_state s) (get_name m) = DISABLED) \/
       (exists x, x ∈ news /\ x.1.1.1.1 = WeakPreferred /\ i ∈ list_conflicting x.2)) /\
    considered (pool s') = considered (pool s) /\
    considered_uptodate s' = true /\
    recomputations (trace s') = recomputations (trace s) /\
    resolutions (trace s') = resolutions (trace s) ++ news /\
    Forall (fun x => considered x.1.1.2 = considered (pool s)) news.
Proof.
  intros Hup Hpend.
  destruct (module_items_to_solve_committed s Hpend) as (s1 & Hsel & Hex & Hfr).
  destruct Hfr as (Hm1 & _ & _ & Hp1 & _ & Hu1 & _ & _ & Hst1 & _ & _ & _ & Htr1).
  revert Hm1 Hp1 Hu1 Hst1 Htr1. unfold_sack. intros Hm1 Hp1 Hu1 Hst1 Htr1.
  set (dis := list_to_set (module_id <$> filter (is_disabled (system_state s)) (modules s))
        : gset nat) in *.
  assert (Hdis : forall i, i ∈ dis <->
            exists m, m ∈ modules s /\ module_id m = i /\
                      module_state_or_available (system_state s) (get_name m) = DISABLED).
  { intros i. unfold dis. rewrite elem_of_list_to_set, list_elem_of_fmap. split.
    - intros (m & -> & Hm). apply list_elem_of_filter in Hm as [Hd Hm]. by exists m.
    - intros (m & Hm & <- & Hd). exists m. split; [done|]. by apply list_elem_of_filter. }
  unfold resolve_active_module_items, bind, modify, ret. rewrite Hsel.
  destruct (filter (is_candidate (system_state s) (metadata_default_streams s)) (modules s))
    as [|c cands].
  - eexists _, _, dis, []. split; [reflexivity|]. unfold_sack. cbn.
    split; [exact Hex|]. split; [intros m Hm Hd; apply Hdis; by exists m|].
    split; [intros i Hi; left; by apply Hdis|].
    rewrite Hp1, Hu1, Htr1, app_nil_r. by repeat split.
  - destruct (module_solve_outcome c cands s1 dis Hex)
      as (s2 & Hrun & _ & Hc & Hu & _ & Hex2 & _ & _ & Hres & Hrec).
    cbv zeta in Hrun, Hex2, Hres.
    rewrite Hst1 in Hrun, Hex2, Hres.
    set (r := fun t => resolve (pool s2) (tier_jobs (system_state s) (c :: cands) t)) in *.
    rewrite Hrun. eexists _, _, (excludes_after dis r), _.
    split; [reflexivity|]. unfold_sack.
    rewrite Hu1, Hup in Hc, Hrec. rewrite Hp1 in Hc. rewrite Htr1 in Hres, Hrec.
    split; [exact Hex2|].
    split; [intros m Hm Hd; apply excludes_after_subseteq, Hdis; by exists m|].
    split; [|split; [exact Hc|]; split; [exact Hu|]; split; [lia|]; split; [exact Hres|]].
    + intros i [Hi|(Hi & Hat & _)]%excludes_after_elem; [left; by apply Hdis|].
      right.
      exists (WeakPreferred, tier_jobs (system_state s) (c :: cands) WeakPreferred,
              pool s2, Some (excludes_at dis r WeakPreferred), r WeakPreferred).
      split; [|split; [reflexivity | exact Hi]].
      rewrite Hat. apply list_elem_of_fmap. exists WeakPreferred.
      split; [reflexivity|]. by repeat constructor.
    + apply Forall_fmap, Forall_forall. intros t _. cbn. exact Hc.
Qed.

(** X15. A resolution over a registry none of whose records is a candidate
    returns NoError with no problems, empties the Active Module Map, leaves
    the items of the Disabled records as exclude set and sets the flag. It
    builds no index and no goal. *)
Theorem resolution_without_candidates (s : ModuleSack) :
  modules_without_static_context s = [] ->
  (forall m, m ∈ modules s ->
     ~ is_candidate (system_state s) (metadata_default_streams s) m) ->
  exists s',
    resolve_active_module_items s = Return ([], NO_ERROR) s' /\
    active_modules s' = ∅ /\
    active_modules_resolved s' = true /\
    excludes s' =
      Some (list_to_set (module_id <$> filter (is_disabled (system_state s)) (modules s))) /\
    pool s' = pool s /\
    provides_ready s' = provides_ready s /\
    considered_uptodate s' = considered_uptodate s /\
    trace s' = trace s.
Proof.
  intros Hpend Hnone.
  destruct (module_items_to_solve_committed s Hpend) as (s1 & Hsel & Hex & Hfr).
  destruct Hfr as (_ & _ & _ & Hp1 & Hr1 & Hu1 & _ & _ & _ & _ & _ & _ & Htr1).
  assert (Hnil : filter (is_candidate (system_state s) (metadata_default_streams s))
                   (modules s) = []).
  { destruct (filter _ _) as [|x l] eqn:E; [done|].
    assert (Hx : x ∈ x :: l) by left. rewrite <- E in Hx.
    apply list_elem_of_filter in Hx as [Hc Hx]. by destruct (Hnone x Hx). }
  rewrite Hnil in Hsel.
  unfold resolve_active_module_items, bind, modify, ret. rewrite Hsel.
  eexists. split; [reflexivity|]. unfold_sack. by repeat split.
Qed.

(** ** Further properties: the modular filter *)

Lemma nevra_names_app b l1 l2 :
  nevra_names b (l1 ++ l2) = nevra_names b l1 ++ nevra_names b l2.
Proof. apply omap_app. Qed.

Lemma collect_artifact_names d rpm :
  names (collect_artifact d rpm) = names d ++ nevra_names false [rpm] /\
  src_names (collect_artifact d rpm) = src_names d ++ nevra_names true [rpm] /\
  reldep_name_list (collect_artifact d rpm) =
    reldep_name_list d ++ nevra_names false [rpm].
Proof.
  unfold collect_artifact, nevra_names. cbn [omap list_omap].
  destruct (nevra_parse rpm) as [|nevra ?]; [by rewrite !app_nil_r|].
  case_decide; cbn [names src_names reldep_name_list]; by rewrite ?app_nil_r.
Qed.

Lemma collect_artifacts_names arts : forall d,
  names (fold_left collect_artifact arts d) = names d ++ nevra_names false arts /\
  src_names (fold_left collect_artifact arts d) = src_names d ++ nevra_names true arts /\
  reldep_name_list (fold_left collect_artifact arts d) =
    reldep_name_list d ++ nevra_names false arts.
Proof.
  induction arts as [|rpm arts IH]; intros d.
  - cbn. by rewrite !app_nil_r.
  - cbn [fold_left]. destruct (IH (collect_artifact d rpm)) as (-> & -> & ->).
    destruct (collect_artifact_names d rpm) as (-> & -> & ->).
    rewrite <- !app_assoc, <- !nevra_names_app. done.
Qed.

Lemma collect_modules_names active ms : forall d,
  names (fold_left (collect_module active) ms d) =
    names d ++ nevra_names false (artifacts_of active true ms) /\
  src_names (fold_left (collect_module active) ms d) =
    src_names d ++ nevra_names true (artifacts_of active true ms) /\
  reldep_name_list (fold_left (collect_module active) ms d) =
    reldep_name_list d ++ nevra_names false (artifacts_of active true ms).
Proof.
  induction ms as [|m ms IH]; intros d.
  - unfold artifacts_of. cbn. by rewrite !app_nil_r.
  - cbn [fold_left]. destruct (IH (collect_module active d m)) as (-> & -> & ->).
    rewrite !artifacts_of_cons. unfold collect_module.
    destruct (is_active active m) eqn:E; cbn [names src_names reldep_name_list].
    + destruct (collect_artifacts_names (get_artifacts m) d) as (-> & -> & ->).
      rewrite decide_True by done.
      by rewrite !nevra_names_app, <- !app_assoc.
    + rewrite decide_False by done. done.
Qed.

(** X16. What the filter collects, exactly: the include patterns are the
    artifacts of the active records and the exclude patterns those of the
    others, in registry order; the names and the source names are those of
    the artifacts of active records that parse as a NEVRA, an artifact that
    does not parse being passed over but still an include pattern; the
    provides to exclude are the names again. Records that are not active
    contribute no name. *)
Theorem collect_data_exact (s : ModuleSack) :
  exists d s',
    collect_data_for_modular_filtering s = Return d s' /\
    let included := artifacts_of (active_modules s') true (modules s') in
    include_NEVRAs d = included /\
    exclude_NEVRAs d = artifacts_of (active_modules s') false (modules s') /\
    names d = nevra_names false included /\
    src_names d = nevra_names true included /\
    reldep_name_list d = names d.
Proof.
  destruct (get_modules_spec s) as (s1 & news & Hrun & _).
  unfold collect_data_for_modular_filtering, bind, gets, ret. rewrite Hrun.
  eexists _, s1. split; [reflexivity|]. cbv zeta.
  destruct (collect_modules_include (active_modules s1) (modules s1)
    {| include_NEVRAs := []; exclude_NEVRAs := []; names := [];
       src_names := []; reldep_name_list := [] |}) as [-> ->].
  destruct (collect_modules_names (active_modules s1) (modules s1)
    {| include_NEVRAs := []; exclude_NEVRAs := []; names := [];
       src_names := []; reldep_name_list := [] |}) as (-> & -> & ->).
  by repeat split.
Qed.

Lemma query_filter_at pkgs test q i p :
  pkgs !! i = Some p ->
  i ∈ query_filter pkgs test q <-> test p = true /\ i ∈ q.
Proof.
  intros Hp. rewrite elem_of_query_filter. split.
  - intros [(p' & Hp' & Ht) Hq]. by simplify_eq.
  - intros [Ht Hq]. split; [by exists p | done].
Qed.

Lemma existsb_elem_of {A} (f : A -> bool) (l : list A) :
  existsb f l = true <-> exists x, x ∈ l /\ f x = true.
Proof.
  rewrite existsb_exists. split; intros (x & Hx & Hf); exists x; split; try done;
    by apply list_elem_of_In.
Qed.

(** The packages the three exclude queries hold between them. *)
Lemma exclude_queries_exact d pkgs rs published i :
  i ∈ (exclude_queries d pkgs rs published).1.1 ∪
      (exclude_queries d pkgs rs published).1.2 ∪
      (exclude_queries d pkgs rs published).2 <->
  exists p,
    pkgs !! i = Some p /\
    (i ∉ published) /\
    (pkg_repo_id p ∉ protected_repo_ids rs) /\
    (forall x, x ∈ include_NEVRAs d -> nevra_match x p = false) /\
    ((exists x, x ∈ exclude_NEVRAs d /\ nevra_match x p = true) \/
     (exists n, n ∈ reldep_name_list d /\ provides_match n p = true) \/
     pkg_name p ∈ names d \/
     (pkg_name p ∈ src_names d /\ (pkg_arch p = "src" \/ pkg_arch p = "nosrc"))).
Proof.
  unfold exclude_queries, protected_repo_ids. cbn [fst snd].
  unfold filter_nevra, filter_provides, filter_name, filter_arch, filter_repo_id_neq.
  destruct (pkgs !! i) as [p|] eqn:Hp.
  - rewrite !elem_of_union, !elem_of_difference, !elem_of_union.
    rewrite !(query_filter_at pkgs _ _ i p Hp).
    rewrite !existsb_elem_of, !bool_decide_eq_true, !elem_of_difference, elem_of_dom, Hp.
    assert (Hsome : is_Some (Some p)) by by eexists.
    assert (Hinc : i ∉ published ->
                   (~ ((exists x, x ∈ include_NEVRAs d /\ nevra_match x p = true) /\
                       is_Some (Some p) /\ (i ∉ published)) <->
                    forall x, x ∈ include_NEVRAs d -> nevra_match x p = false)).
    { intros Hpub. split.
      - intros Hn x Hx. destruct (nevra_match x p) eqn:E; [|done].
        destruct Hn. split; [by exists x | done].
      - intros Hall [(x & Hx & Ht) _]. rewrite (Hall x Hx) in Ht. done. }
    assert (Harch : pkg_arch p ∈ ["src"; "nosrc"] <->
                    pkg_arch p = "src" \/ pkg_arch p = "nosrc").
    { rewrite !elem_of_cons, elem_of_nil. tauto. }
    rewrite Harch.
    split.
    + intros H. exists p. split; [done|].
      assert (Hpub : i ∉ published) by tauto.
      specialize (Hinc Hpub). tauto.
    + intros (p' & [= <-] & Hpub & Hrepo & Hall & Hwhy).
      specialize (Hinc Hpub). tauto.
  - split.
    + rewrite !elem_of_union, !elem_of_difference, !elem_of_union.
      rewrite !elem_of_query_filter.
      intros [[[[(p & Hp' & _) _] _]|[[(p & Hp' & _) _] _]]|[[[(p & Hp' & _) _]|[(p & Hp' & _) _]] _]];
        congruence.
    + by intros (p & ? & _).
Qed.

(** The filter returns; the module excludes it leaves are the union of its
    three queries over the data it collected. *)
Lemma module_filtering_run s :
  exists d s1 s' news,
    collect_data_for_modular_filtering s = Return d s1 /\
    module_filtering s = Return tt s' /\
    (forall i,
       i ∈ module_excludes s' <->
       i ∈ (exclude_queries d (rpm_packages s) (repos s) (module_excludes s)).1.1 ∪
           (exclude_queries d (rpm_packages s) (repos s) (module_excludes s)).1.2 ∪
           (exclude_queries d (rpm_packages s) (repos s) (module_excludes s)).2) /\
    d = fold_left (collect_module (active_modules s1)) (modules s1)
          {| include_NEVRAs := []; exclude_NEVRAs := []; names := [];
             src_names := []; reldep_name_list := [] |} /\
    modules s1 = modules s ++ news /\
    modules_without_static_context s1 = [] /\
    rpm_packages s1 = rpm_packages s /\
    repos s1 = repos s /\
    s' = set_trace (trace s') (set_module_excludes_field (module_excludes s') s1).
Proof.
  destruct (get_modules_spec s) as (s1 & news & Hrun & Hmods & _ & Hpend & Hfr).
  destruct Hfr as (_ & _ & _ & _ & _ & _ & _ & _ & _ & Hpk & Hrp & Hme & _).
  unfold module_filtering, collect_data_for_modular_filtering, bind, gets, ret.
  rewrite Hrun. rewrite Hpk, Hrp, Hme.
  set (d := fold_left (collect_module (active_modules s1)) (modules s1)
              {| include_NEVRAs := []; exclude_NEVRAs := []; names := [];
                 src_names := []; reldep_name_list := [] |}).
  unfold set_module_excludes, add_module_excludes, bind, modify, emit, modify.
  exists d, s1.
  destruct (exclude_queries d (rpm_packages s) (repos s) (module_excludes s))
    as [[q1 q2] q3].
  eexists _, news. split; [reflexivity|]. split; [reflexivity|].
  split; [intros i; unfold_sack; cbn [fst snd]; reflexivity|].
  split; [reflexivity|]. do 4 (split; [assumption|]). by sack_ext.
Qed.

(** X17. Which packages the modular filter excludes, exactly: a package of
    the sack is in the module excludes the filter leaves when it was not
    module-excluded when the filter started, its repository is not a
    protected one, no include pattern matches it, and an exclude pattern
    matches it, or it provides a collected name, or its name is a collected
    name, or it is a source package whose name is a collected source
    name. *)
Theorem modular_excludes_exact (s : ModuleSack) :
  exists d s1 s',
    collect_data_for_modular_filtering s = Return d s1 /\
    module_filtering s = Return tt s' /\
    forall i,
      i ∈ module_excludes s' <->
      exists p,
        rpm_packages s !! i = Some p /\
        (i ∉ module_excludes s) /\
        (pkg_repo_id p ∉ protected_repo_ids (repos s)) /\
        (forall x, x ∈ include_NEVRAs d -> nevra_match x p = false) /\
        ((exists x, x ∈ exclude_NEVRAs d /\ nevra_match x p = true) \/
         (exists n, n ∈ reldep_name_list d /\ provides_match n p = true) \/
         pkg_name p ∈ names d \/
         (pkg_name p ∈ src_names d /\ (pkg_arch p = "src" \/ pkg_arch p = "nosrc"))).
Proof.
  destruct (module_filtering_run s) as (d & s1 & s' & news & Hcol & Hrun & Hex & _).
  exists d, s1, s'. split; [exact Hcol|]. split; [exact Hrun|].
  intros i. rewrite Hex. apply exclude_queries_exact.
Qed.

(** X18. The modular filter never excludes a package of the system
    repository, of the command line, or of an enabled repository marked for
    module hotfixes, whatever the modules list as artifacts. *)
Theorem protected_repositories_not_filtered (s : ModuleSack) :
  exists s',
    module_filtering s = Return tt s' /\
    forall i p,
      rpm_packages s !! i = Some p ->
      (pkg_repo_id p = "@System" \/ pkg_repo_id p = "@commandline" \/
       exists r, r ∈ repos s /\ repo_enabled r = true /\
                 repo_module_hotfixes r = true /\ repo_get_id r = pkg_repo_id p) ->
      i ∉ module_excludes s'.
Proof.
  destruct (module_filtering_run s) as (d & s1 & s' & news & _ & Hrun & Hex & _).
  exists s'. split; [exact Hrun|].
  intros i p Hp Hrepo Hin.
  apply Hex, exclude_queries_exact in Hin as (p' & Hp' & _ & Hnot & _).
  simplify_eq. apply Hnot. unfold protected_repo_ids.
  destruct Hrepo as [->|[->|(r & Hr & Hen & Hhot & <-)]].
  - by left.
  - right. by left.
  - apply elem_of_app. right. apply list_elem_of_fmap. exists r.
    split; [done|]. by apply list_elem_of_filter.
Qed.

(** X19. The queries of the filter are built over the packages that the
    module excludes published so far do not hide, so the filter never
    excludes again a package that was module-excluded when it started. Run
    a second time right after a first, it leaves none of the packages the
    first run excluded among the module excludes. *)
Theorem module_filtering_drops_earlier_excludes (s : ModuleSack) :
  exists s' s'',
    module_filtering s = Return tt s' /\
    (forall i, i ∈ module_excludes s -> i ∉ module_excludes s') /\
    module_filtering s' = Return tt s'' /\
    (forall i, i ∈ module_excludes s' -> i ∉ module_excludes s'').
Proof.
  destruct (module_filtering_run s) as (d & s1 & s' & news & _ & Hrun & Hex & _).
  destruct (module_filtering_run s') as (d' & s1' & s'' & news' & _ & Hrun' & Hex' & _).
  exists s', s''. split; [exact Hrun|]. split; [|split; [exact Hrun'|]].
  - intros i Hi Hin. apply Hex, exclude_queries_exact in Hin as (p & _ & Hn & _). done.
  - intros i Hi Hin. apply Hex', exclude_queries_exact in Hin as (p & _ & Hn & _). done.
Qed.

(** ** Further properties: the static-context resolver *)

(** X20. The label the resolver assigns to a pending record depends on the
    record and on the registry as it stood when the resolver started only:
    whatever else is pending with it, and in whatever order, the record is
    committed with the same label. In particular a pending record is never
    matched against a record committed earlier in the same run. *)
Theorem labels_ignore_the_batch (s : ModuleSack) (batch : list ModuleItem) :
  exists s1 news1 s2 news2,
    add_modules_without_static_context s = Return tt s1 /\
    modules s1 = modules s ++ news1 /\
    add_modules_without_static_context (set_modules_without_static_context batch s) =
      Return tt s2 /\
    modules s2 = modules s ++ news2 /\
    forall k1 k2 d n1 n2,
      modules_without_static_context s !! k1 = Some d -> news1 !! k1 = Some n1 ->
      batch !! k2 = Some d -> news2 !! k2 = Some n2 ->
      computed_static_context n1 = computed_static_context n2 /\
      with_module_id 0 n1 = with_module_id 0 n2.
Proof.
  destruct (add_modules_without_static_context_spec s)
    as (s1 & news1 & Hrun1 & Hmods1 & Hall1 & _).
  destruct (add_modules_without_static_context_spec
              (set_modules_without_static_context batch s))
    as (s2 & news2 & Hrun2 & Hmods2 & Hall2 & _).
  revert Hmods2 Hall2. unfold_sack. intros Hmods2 Hall2.
  exists s1, news1, s2, news2.
  split; [exact Hrun1|]. split; [exact Hmods1|]. split; [exact Hrun2|].
  split; [exact Hmods2|].
  intros k1 k2 d n1 n2 Hd1 Hn1 Hd2 Hn2.
  destruct (Forall2_lookup_lr _ _ _ _ _ _ Hall1 Hd1 Hn1) as [i1 ->].
  destruct (Forall2_lookup_lr _ _ _ _ _ _ Hall2 Hd2 Hn2) as [i2 ->].
  split; reflexivity.
Qed.

(** ** Further properties: the registry *)

(** X21. No operation on the sack removes, replaces or reorders a record of
    the registry: the resolver, the query for the active modules and the
    modular filter leave the registry they found as a prefix of the one they
    leave; a resolution started with no record pending, the solve and the
    activation of a goal's installs leave it as it is. *)
Theorem registry_only_grows (s : ModuleSack) :
  (exists s', add_modules_without_static_context s = Return tt s' /\
              modules s `prefix_of` modules s') /\
  (exists ms s', get_active_modules s = Return ms s' /\
                 modules s `prefix_of` modules s') /\
  (modules_without_static_context s = [] ->
   exists r s', resolve_active_module_items s = Return r s' /\
                modules s' = modules s) /\
  (exists s', module_filtering s = Return tt s' /\
              modules s `prefix_of` modules s') /\
  (forall goal, exists s', set_active_modules goal s = Return tt s' /\
                           modules s' = modules s) /\
  (forall items e, excludes s = Some e ->
     exists r s', module_solve items s = Return r s' /\ modules s' = modules s).
Proof.
  split; [|split; [|split; [|split; [|split]]]].
  - destruct (add_modules_without_static_context_spec s) as (s' & news & Hrun & Hm & _).
    exists s'. split; [exact Hrun|]. by exists news.
  - destruct (get_active_modules_spec s) as (ms & s' & Hrun & _ & _ & _ & _ & Hpre).
    by exists ms, s'.
  - intros Hpend.
    destruct (resolve_active_module_items_keeps_keyed s Hpend)
      as (r & s' & Hrun & Hm & _).
    by exists r, s'.
  - destruct (module_filtering_run s)
      as (d & s1 & s' & news & _ & Hrun & _ & _ & Hm & _ & _ & _ & Hs').
    exists s'. split; [exact Hrun|]. rewrite Hs'. unfold_sack. by exists news.
  - intros goal. eexists. split; [apply set_active_modules_spec|]. reflexivity.
  - intros items e He.
    destruct (module_solve_keeps_keyed items s e He) as (err & s' & Hrun & Hm & _).
    by eexists _, s'.
Qed.

End Engine.

(** ** The scenarios, run *)

(** With app Enabled and db on its default stream, the Strict goal is free
    of problems: it alone is resolved, the severity is NoError, and both
    records are active. *)
Lemma tiered_solve_order_witness :
  [app_1_0; db_5] <> [] /\
  excludes (set_excludes (Some ∅) two_modules) = Some ∅ /\
  exists s',
    module_solve (collaborators := first_provider_solver) [app_1_0; db_5]
      (set_excludes (Some ∅) two_modules) = Return ([], NO_ERROR) s' /\
    (resolutions (trace s')).*1.*1.*1.*1 = [Strict] /\
    active_modules s' = {[ 2 := app_1_0; 3 := db_5 ]}.
Proof.
  split; [done|]. split; [reflexivity|].
  destruct (tiered_solve_order (collaborators := first_provider_solver)
              [app_1_0; db_5] (set_excludes (Some ∅) two_modules) ∅
              ltac:(done) eq_refl)
    as (err & s' & Hrun & _ & Hres & Hwin).
  vm_compute in Hrun. injection Hrun as <- <-.
  eexists. split; [vm_compute; reflexivity|]. split; reflexivity.
Defined.

(** Of two builds of app:1.0 that share their name+stream+context label, the Weak-preferred goal reports the first,
    item 2, as conflicting; the Weak goal installs the second, item 3, only;
    the Active Module Map of that Weak-tier solve holds item 2 all the
    same. *)
Example conflicting_item_in_weak_map :
  match module_solve (collaborators := scripted_solver [2; 4] [3])
          [app_1_0_v1; app_1_0_v2] two_builds with
  | Return (_, err) s' =>
      let r t := resolve (Collaborators := scripted_solver [2; 4] [3]) (pool s')
                   (tier_jobs (system_state two_builds) [app_1_0_v1; app_1_0_v2] t) in
      goal_ret (r Strict) <> NO_PROBLEM /\
      goal_ret (r Best) <> NO_PROBLEM /\
      goal_ret (r WeakPreferred) <> NO_PROBLEM /\
      goal_ret (r Weak) = NO_PROBLEM /\
      err = ERROR /\
      list_conflicting (r WeakPreferred) = [2; 4] /\
      excludes s' = Some {[ 2; 4 ]} /\
      list_installs (r Weak) = [3] /\
      active_modules s' !! 2 = Some app_1_0_v1
  | Raise _ _ => False
  end.
Proof. vm_compute. repeat split; done. Qed.

(** The same registry with a solver that reports the items 2 and 3 as
    conflicting and installs item 3 whenever the considered bitmap of the
    pool shows it: the bitmap is not recomputed after the items join the
    exclude set, so the Weak goal still sees item 3 and installs it. *)
Example weak_goal_resolves_against_stale_bitmap :
  match module_solve (collaborators := scripted_solver [2; 3] [3])
          [app_1_0_v1; app_1_0_v2] two_builds with
  | Return (_, err) s' =>
      err = ERROR /\
      excludes s' = Some {[ 2; 3 ]} /\
      considered (pool s') = Some {[ 0; 1; 2; 3; 4 ]} /\
      (fun x => list_installs x.2) <$> last (resolutions (trace s')) = Some [3]
  | Raise _ _ => False
  end.
Proof. vm_compute. repeat split; reflexivity. Qed.

(** Two unmatched dynamic-context records whose signatures differ, one empty and one the string "NoRequires", receive the
    same label. *)
Example sentinel_label_collision :
  match add_modules_without_static_context pending_sentinel with
  | Return _ s' =>
      exists n1 n2,
        modules s' = [n1; n2] /\
        unmatched (modules pending_sentinel) dyn_no_requires /\
        unmatched (modules pending_sentinel) dyn_requires_sentinel /\
        get_module_dependencies_string dyn_no_requires <>
          get_module_dependencies_string dyn_requires_sentinel /\
        computed_static_context n1 = "NoRequires" /\
        computed_static_context n2 = "NoRequires"
  | Raise _ _ => False
  end.
Proof. vm_compute. eexists _, _. repeat split; done. Qed.

(** On a pool whose bitmap hides item 3 the index is built with the bitmap
    detached, and the bitmap is back when the operation returns. *)
Example index_built_with_bitmap_detached :
  match make_provides_ready (collaborators := first_provider_solver) considered_without_3 with
  | Return _ s' =>
      considered (pool considered_without_3) = Some {[ 0; 1; 2 ]} /\
      (fun e => match e with
                | EvCreateWhatProvides p => considered p
                | _ => Some ∅
                end) <$> trace s' = [None] /\
      considered (pool s') = Some {[ 0; 1; 2 ]} /\
      provides_ready s' = true
  | Raise _ _ => False
  end.
Proof. vm_compute. repeat split; reflexivity. Qed.

(** C1, on the code. The map holds app, item 2, and db, item 3, from an
    earlier solve; the solve is run for app alone. The Strict goal is free
    of problems and installs item 2 only; it is the only goal resolved and
    the severity is NoError. The goal has a transaction, so the map is not
    cleared: it still holds db's item 3, which the winning goal did not
    select. *)
Lemma strict_selection_is_not_the_map :
  match module_solve (collaborators := first_provider_solver) [app_1_0]
          db_disabled_after_resolution with
  | Return (problems, err) s' =>
      problems = [] /\
      err = NO_ERROR /\
      (fun x => (x.1.1.1.1, goal_ret x.2, get_transaction x.2, list_installs x.2))
        <$> resolutions (trace s') = [(Strict, NO_PROBLEM, true, [2])] /\
      active_modules db_disabled_after_resolution = {[ 2 := app_1_0; 3 := db_5 ]} /\
      active_modules s' = {[ 2 := app_1_0; 3 := db_5 ]} /\
      active_modules s' !! 3 = Some db_5
  | Raise _ _ => False
  end.
Proof. vm_compute. repeat split; reflexivity. Qed.

(** C2, on the code. app is Enabled, db is not; the solver has a problem
    with every goal that holds a mandatory job and then reports db's item 3
    as conflicting, and with optional jobs only it installs those of the
    items 2 and 3 that the considered bitmap of the pool shows. The first
    three goals have problems and item 3 joins the exclude set before the
    Weak goal is resolved. The bitmap is not recomputed, so the pool of the
    Weak goal still shows item 3: the goal installs it and the Weak-tier map
    holds it, where the same solver on the bitmap recomputed from the
    exclude set installs item 2 only. *)
Lemma excluded_conflict_is_activated :
  match module_solve (collaborators := scripted_solver [3] [2; 3]) [app_1_0; db_5]
          (set_excludes (Some ∅) two_modules) with
  | Return (_, err) s' =>
      let r t := resolve (Collaborators := scripted_solver [3] [2; 3]) (pool s')
                   (tier_jobs (system_state two_modules) [app_1_0; db_5] t) in
      goal_ret (r Strict) <> NO_PROBLEM /\
      goal_ret (r Best) <> NO_PROBLEM /\
      goal_ret (r WeakPreferred) <> NO_PROBLEM /\
      list_conflicting (r WeakPreferred) = [3] /\
      err = ERROR /\
      (fun x => (x.1.1.1.1, x.1.2, list_installs x.2)) <$> last (resolutions (trace s')) =
        Some (Weak, Some {[ 3 ]}, [2; 3]) /\
      excludes s' = Some {[ 3 ]} /\
      considered (pool s') = Some {[ 0; 1; 2; 3 ]} /\
      considered_uptodate s' = true /\
      active_modules s' !! 3 = Some db_5 /\
      list_installs
        (resolve (Collaborators := scripted_solver [3] [2; 3])
           (with_considered (Some (considered_of s')) (pool s'))
           (tier_jobs (system_state two_modules) [app_1_0; db_5] Weak)) = [2]
  | Raise _ _ => False
  end.
Proof. vm_compute. repeat split; done. Qed.

(** C3, on the code. Two dynamic-context builds of tool:1 with the same
    requirement come in two batches, and the registry never holds a
    static-context record. The first is committed with its requirement as
    label. For the second, the map of groups is built from every record of
    the registry, the first build among them, and the label read from the
    group is the context the first build came with, not the label it was
    given: the two builds end with different labels. *)
Lemma second_batch_label_differs :
  match add_modules_without_static_context first_batch with
  | Return _ s1 =>
      match add_modules_without_static_context
              (set_modules_without_static_context [dyn_b] s1) with
      | Return _ s2 =>
          exists a b,
            modules s1 = [a] /\
            modules s2 = [a; b] /\
            get_name_stream dyn_a = get_name_stream dyn_b /\
            get_module_dependencies_string dyn_a = get_module_dependencies_string dyn_b /\
            Forall (fun m => computed_static_context m <> "") (modules s1) /\
            computed_static_context a = "platform:f36" /\
            computed_static_context b = "dynA" /\
            get_name_stream_staticcontext a <> get_name_stream_staticcontext b
      | Raise _ _ => False
      end
  | Raise _ _ => False
  end.
Proof.
  vm_compute. eexists _, _. repeat split; try done. by repeat constructor.
Qed.


(** With the flag set, the query hands out the two records of the map and
    logs nothing. *)
Lemma resolution_flag_cached_witness :
  active_modules_resolved db_disabled_after_resolution = true /\
  exists s',
    get_active_modules (collaborators := first_provider_solver)
      db_disabled_after_resolution = Return [app_1_0; db_5] s' /\
    trace s' = [].
Proof.
  split; [reflexivity|].
  destruct (proj2 (proj2 (resolution_flag_cached (collaborators := first_provider_solver)
                            db_disabled_after_resolution)) eq_refl)
    as (ms & s' & Hrun & _ & _ & _ & _ & Htr).
  vm_compute in Hrun. injection Hrun as <- <-.
  eexists. split; [vm_compute; reflexivity|]. reflexivity.
Defined.

(** C9, on the code. A first resolution makes app and db active. The
    configuration then disables db. The second resolution excludes db's item,
    solves for app alone, and its Strict goal installs item 2 only; the goal
    has a transaction, so the map is not cleared, and db's item 3 is still in
    the Active Module Map. *)
Lemma stale_active_module_survives :
  match resolve_active_module_items (collaborators := first_provider_solver)
          two_modules with
  | Return _ s1 =>
      match resolve_active_module_items (collaborators := first_provider_solver)
              (with_system_state db_disabled s1) with
      | Return (_, err) s2 =>
          active_modules s1 = {[ 2 := app_1_0; 3 := db_5 ]} /\
          err = NO_ERROR /\
          excludes s2 = Some {[ 3 ]} /\
          (fun x => (x.1.1.1.1, goal_ret x.2, get_transaction x.2, list_installs x.2))
            <$> last (resolutions (trace s2)) = Some (Strict, NO_PROBLEM, true, [2]) /\
          active_modules s2 = {[ 2 := app_1_0; 3 := db_5 ]}
      | Raise _ _ => False
      end
  | Raise _ _ => False
  end.
Proof. vm_compute. repeat split; done. Qed.

(** The selection on the two-module registry once db is disabled: app is the
    only candidate and db's item is excluded. *)
Example selection_with_db_disabled :
  match module_items_to_solve (with_system_state db_disabled two_modules) with
  | Return items s' => items = [app_1_0] /\ excludes s' = Some {[ 3 ]}
  | Raise _ _ => False
  end.
Proof. vm_compute. split; reflexivity. Qed.

(** The spec's filtering example: the package of the inactive stream is
    excluded, the package of the active one and the package both list are
    not. *)
Example filtering_example_excludes :
  match module_filtering (collaborators := first_provider_solver) filtering_example with
  | Return _ s' => module_excludes s' = {[ 11 ]}
  | Raise _ _ => False
  end.
Proof. vm_compute. reflexivity. Qed.

(** A refresh on a dirty cache recomputes once; the next one does not. *)
Example refresh_twice :
  match recompute_considered_in_pool (set_excludes (Some {[ 3 ]}) two_modules) with
  | Return _ s1 =>
      considered (pool s1) = Some {[ 0; 1; 2 ]} /\
      recomputations (trace s1) = 1 /\
      recompute_considered_in_pool s1 = Return tt s1
  | Raise _ _ => False
  end.
Proof. vm_compute. repeat split; reflexivity. Qed.

(** A resolution that cannot resolve still sets the flag: the next query for
    the active modules is served from the empty map and resolves nothing. *)
Example cannot_resolve_is_cached :
  match resolve_active_module_items (collaborators := no_solution_solver)
          two_modules with
  | Return (_, err) s1 =>
      err = CANNOT_RESOLVE_MODULES /\
      active_modules_resolved s1 = true /\
      active_modules s1 = ∅ /\
      match get_active_modules (collaborators := no_solution_solver) s1 with
      | Return ms s2 => ms = [] /\ resolutions (trace s2) = resolutions (trace s1)
      | Raise _ _ => False
      end
  | Raise _ _ => False
  end.
Proof. vm_compute. repeat split; reflexivity. Qed.

(** ** Further scenarios, run *)

(** Two builds of app:1.0, a solver that reports the items 2 and 3 as
    conflicting: the solve recomputes the bitmap once, before its first goal,
    and leaves it showing every item although the items 2 and 3 have joined
    the exclude set. *)
Lemma solve_refreshes_bitmap_once_witness :
  [app_1_0_v1; app_1_0_v2] <> [] /\
  excludes two_builds = Some ∅ /\
  exists s',
    module_solve (collaborators := scripted_solver [2; 3] [3]) [app_1_0_v1; app_1_0_v2]
      two_builds = Return ([], ERROR) s' /\
    excludes s' = Some {[ 2; 3 ]} /\
    considered (pool s') = Some {[ 0; 1; 2; 3; 4 ]} /\
    considered_uptodate s' = true /\
    recomputations (trace s') = 1.
Proof.
  split; [done|]. split; [reflexivity|].
  destruct (solve_refreshes_bitmap_once (collaborators := scripted_solver [2; 3] [3])
              [app_1_0_v1; app_1_0_v2] two_builds ∅
              ltac:(done) eq_refl)
    as (err & s' & news & Hrun & Hc & Hu & _ & Hrec & _).
  vm_compute in Hrun. injection Hrun as <- <-.
  eexists. split; [vm_compute; reflexivity|].
  split; [reflexivity|]. split; [reflexivity|]. split; [exact Hu | exact Hrec].
Defined.

(** The same registry, the solver reporting the items 2 and 4: they are what
    the solve adds to the exclude set. *)
Lemma solve_excludes_only_conflicts_witness :
  [app_1_0_v1; app_1_0_v2] <> [] /\
  excludes two_builds = Some ∅ /\
  exists s',
    module_solve (collaborators := scripted_solver [2; 4] [3]) [app_1_0_v1; app_1_0_v2]
      two_builds = Return ([], ERROR) s' /\
    excludes s' = Some {[ 2; 4 ]}.
Proof.
  split; [done|]. split; [reflexivity|].
  destruct (solve_excludes_only_conflicts (collaborators := scripted_solver [2; 4] [3])
              [app_1_0_v1; app_1_0_v2] two_builds ∅
              ltac:(done) eq_refl)
    as (err & s' & e' & news & Hrun & Hex & _).
  vm_compute in Hrun. injection Hrun as <- <-.
  eexists. split; [vm_compute; reflexivity|]. reflexivity.
Defined.

(** With a solver that finds a problem in every goal, the solve of the two
    modules logs the critical message once and returns CannotResolve. *)
Lemma critical_iff_cannot_resolve_witness :
  excludes (set_excludes (Some ∅) two_modules) = Some ∅ /\
  exists s',
    module_solve (collaborators := no_solution_solver) [app_1_0; db_5]
      (set_excludes (Some ∅) two_modules) = Return ([], CANNOT_RESOLVE_MODULES) s' /\
    criticals (trace s') = [critical_message] /\
    active_modules s' = ∅.
Proof.
  split; [reflexivity|].
  destruct (critical_iff_cannot_resolve (collaborators := no_solution_solver)
              [app_1_0; db_5] (set_excludes (Some ∅) two_modules) ∅
              eq_refl)
    as (err & s' & news & Hrun & _ & Hcr & _ & Hact).
  vm_compute in Hrun. injection Hrun as <- <-.
  eexists. split; [vm_compute; reflexivity|]. split; [exact Hcr|].
  by apply Hact.
Defined.

(** db has no persisted state: in a solve for db alone the Weak goal is
    given the jobs of the Weak-preferred goal. *)
Lemma solve_repeats_a_goal_witness :
  [db_5] <> [] /\
  excludes (set_excludes (Some ∅) two_modules) = Some ∅ /\
  exists s',
    module_solve (collaborators := no_solution_solver) [db_5]
      (set_excludes (Some ∅) two_modules) = Return ([], CANNOT_RESOLVE_MODULES) s' /\
    tier_jobs (system_state two_modules) [db_5] Weak =
      tier_jobs (system_state two_modules) [db_5] WeakPreferred.
Proof.
  split; [done|]. split; [reflexivity|].
  destruct (solve_repeats_a_goal (collaborators := no_solution_solver)
              [db_5] (set_excludes (Some ∅) two_modules) ∅
              ltac:(done) eq_refl)
    as (err & s' & Hrun & Hnone & _).
  vm_compute in Hrun. injection Hrun as <- <-.
  eexists. split; [vm_compute; reflexivity|].
  apply Hnone. intros m ->%list_elem_of_singleton. vm_compute. discriminate.
Defined.

(** The first resolution of the two-module registry files app under 2 and
    db under 3. *)
Lemma resolution_files_records_by_id_witness :
  modules_without_static_context two_modules = [] /\
  keyed_by_item_id (modules two_modules) (active_modules two_modules) /\
  exists r s',
    resolve_active_module_items (collaborators := first_provider_solver) two_modules =
      Return r s' /\
    active_modules s' = {[ 2 := app_1_0; 3 := db_5 ]}.
Proof.
  split; [reflexivity|]. split; [apply map_Forall_empty|].
  destruct (resolution_files_records_by_id (collaborators := first_provider_solver)
              two_modules eq_refl ltac:(apply map_Forall_empty))
    as (r & s' & Hrun & _).
  vm_compute in Hrun. injection Hrun as <- <-.
  eexists _, _. split; [vm_compute; reflexivity|]. reflexivity.
Defined.

(** The query on the two-module registry returns app, item 2, before db,
    item 3. *)
Lemma get_active_modules_sorted_witness :
  keyed_by_item_id (modules two_modules) (active_modules two_modules) /\
  exists s',
    get_active_modules (collaborators := first_provider_solver) two_modules =
      Return [app_1_0; db_5] s'.
Proof.
  split; [apply map_Forall_empty|].
  destruct (get_active_modules_sorted (collaborators := first_provider_solver)
              two_modules ltac:(apply map_Forall_empty))
    as (ms & s' & Hrun & _).
  vm_compute in Hrun. injection Hrun as <- <-.
  eexists. vm_compute. reflexivity.
Defined.

(** Asked twice, the two-module registry answers the same. *)
Lemma get_active_modules_stable_witness :
  exists ms s',
    get_active_modules (collaborators := first_provider_solver) two_modules =
      Return ms s' /\
    get_active_modules (collaborators := first_provider_solver) s' = Return ms s' /\
    ms = [app_1_0; db_5].
Proof.
  destruct (get_active_modules_stable (collaborators := first_provider_solver)
              two_modules)
    as (ms & s' & Hrun & Hagain).
  exists ms, s'. split; [exact Hrun|]. split; [exact Hagain|].
  vm_compute in Hrun. by injection Hrun as <- _.
Defined.

(** After db is disabled the resolution excludes its item 3, and solves
    against the bitmap of the first resolution, which still shows it. *)
Lemma resolution_trusts_marked_bitmap_witness :
  considered_uptodate db_disabled_after_resolution = true /\
  modules_without_static_context db_disabled_after_resolution = [] /\
  exists r s',
    resolve_active_module_items (collaborators := first_provider_solver)
      db_disabled_after_resolution = Return r s' /\
    excludes s' = Some {[ 3 ]} /\
    considered (pool s') = Some {[ 0; 1; 2; 3 ]} /\
    considered_uptodate s' = true.
Proof.
  split; [reflexivity|]. split; [reflexivity|].
  destruct (resolution_trusts_marked_bitmap (collaborators := first_provider_solver)
              db_disabled_after_resolution eq_refl eq_refl)
    as (r & s' & e' & news & Hrun & _ & _ & _ & Hc & Hu & _).
  vm_compute in Hrun. injection Hrun as <- <-.
  eexists _, _. split; [vm_compute; reflexivity|].
  split; [reflexivity|]. split; [exact Hc | exact Hu].
Defined.

(** With both modules disabled no record is a candidate: the resolution
    empties the map and excludes both items. *)
Lemma resolution_without_candidates_witness :
  modules_without_static_context (with_system_state all_disabled two_modules) = [] /\
  (forall m, m ∈ modules (with_system_state all_disabled two_modules) ->
     ~ is_candidate all_disabled (metadata_default_streams two_modules) m) /\
  exists s',
    resolve_active_module_items (collaborators := first_provider_solver)
      (with_system_state all_disabled two_modules) = Return ([], NO_ERROR) s' /\
    excludes s' = Some {[ 2; 3 ]} /\
    active_modules s' = ∅.
Proof.
  assert (Hnone : forall m, m ∈ modules (with_system_state all_disabled two_modules) ->
            ~ is_candidate all_disabled (metadata_default_streams two_modules) m).
  { intros m Hm [Hd _]. apply Hd.
    apply elem_of_cons in Hm as [->|Hm]; [reflexivity|].
    apply list_elem_of_singleton in Hm as ->. reflexivity. }
  split; [reflexivity|]. split; [exact Hnone|].
  destruct (resolution_without_candidates (collaborators := first_provider_solver)
              (with_system_state all_disabled two_modules) eq_refl Hnone)
    as (s' & Hrun & Ha & _).
  vm_compute in Hrun. injection Hrun as <-.
  eexists. split; [vm_compute; reflexivity|]. split; [reflexivity | exact Ha].
Defined.

(** The resolution of the two-module registry leaves the registry it
    found. *)
Lemma registry_only_grows_witness :
  modules_without_static_context two_modules = [] /\
  exists r s',
    resolve_active_module_items (collaborators := first_provider_solver) two_modules =
      Return r s' /\
    modules s' = modules two_modules.
Proof.
  split; [reflexivity|].
  exact (proj1 (proj2 (proj2
           (registry_only_grows (collaborators := first_provider_solver)
              two_modules))) eq_refl).
Defined.

(** The goal installs item 3 and has no transaction: of the two entries the
    map held, db's is set again and app's is dropped. *)
Lemma set_active_modules_lookup_witness :
  exists s',
    set_active_modules installs_db db_disabled_after_resolution = Return tt s' /\
    active_modules db_disabled_after_resolution !! 2 = Some app_1_0 /\
    active_modules s' !! 2 = None /\
    active_modules s' !! 3 = Some db_5.
Proof.
  destruct (set_active_modules_lookup installs_db db_disabled_after_resolution)
    as (s' & Hrun & _ & Hlookup).
  exists s'. split; [exact Hrun|]. split; [reflexivity|].
  split; rewrite Hlookup; vm_compute; reflexivity.
Defined.

